(* ===== verification/_CoqProject ===== *)
-Q . S2P
Prelude.v
JsString.v
JsValue.v
Effects.v
Json.v
Query.v
Selection.v
Listeners.v
Widget.v
Render.v
