(* ===== verification/Prelude.v ===== *)
(** * Verification of the Integrated RAG Assistant widget

    The repository ships one React component,
    [src/my-book/src/components/Chatbot.jsx] (function [Chatbot]).  It keeps
    four pieces of React state ([query], [answer], [sources], [isLoading],
    lines 11-14); a [useEffect] (lines 17-31) registers [handleSelection] on
    the document for [mouseup] and [keyup] and removes it on unmount; the
    async handler [sendQuery] (lines 33-66) trims and checks the question,
    sets the loading flag, POSTs [JSON.stringify({ query })] to
    [http://127.0.0.1:8000/query], and on settlement writes the answer and
    sources or an error text, resetting the flag in [finally]; the JSX
    (lines 69-96) wires the textarea's [onChange] to [setQuery] and the
    button's [onClick] to [sendQuery], disabled while [isLoading].

    ** Files, in dependency order (the _CoqProject order)

    - [Prelude] (this file): JavaScript strings as lists of UTF-16 code
      units ([jsstr], bounded by [code_unit]), ASCII source literals
      ([lit], notation [‹"..."›] in [js_scope]), the [chatbot] hint
      databases and the [z_cases] tactic.
    - [JsString]: [String.prototype.trim] (ECMA-262 TrimString) as the
      code calls it at lines 19 and 34: [is_js_whitespace], [trim_start],
      [trim_end], [js_trim].  Theorems C28-C30: the result is the unique
      edge-clean infix left after removing white space, it has no white
      space at either end, and it is empty exactly on white-space
      strings.
    - [JsValue]: the values [response.json()] can produce ([jsval], numbers
      as IEEE doubles), [completion] (normal/throw), ToBoolean, [||]
      ([js_or]) and property access [get_named] with its TypeError on
      [null]/[undefined] ([lookup_prop]: the last binding of a duplicate
      key wins, as in [JSON.parse]).  The TypeError texts are
      implementation-defined, so they are an interface, the class
      [EngineMessages], with V8's wording as the instance [v8_messages];
      the theorems hold for every instance.
    - [Effects]: the state record [UI], the setter calls [Update] and
      React's in-order application [apply_updates], and the handler monad
      [Seg] (writer of updates and console lines, plus exceptions) with
      [try_catch_finally] (ECMA-262 14.15).  Handlers are modelled by the
      setter calls they enqueue: all setters here take values, so React's
      batching makes the last value per cell win, which is what
      [apply_updates] computes.
    - [Json]: [JSON.stringify({ query })] of line 47 ([quote_units],
      [escape_unit], [quote_json_string], [stringify_query]; ES2019
      QuoteJSONString on code units, lone surrogates escaped) and an RFC
      8259 decoder.  Theorems C22-C24: the server decodes exactly the
      question typed, and the body is well-formed UTF-16 with no raw
      control character.
    - [Query]: [sendQuery] as three segments separated by its two [await]s
      ([sendQuery_start], [sendQuery_after_fetch], [sendQuery_after_json]);
      the [try] spans both awaits, so [in_try] keeps it open while a segment
      suspends and runs [catch_block]/[finally_block] when it returns or
      throws.  [run_sendQuery] chains the segments for given settlements of
      the fetch and JSON promises.  Theorems C3 and C6-C13: every invocation
      returns after its two resumptions with [isLoading] false on every path
      (the spec's "exactly one cleanup" guarantee), and the final state on
      each branch (success, HTTP error, network error, JSON error, [null]
      body, blank question, falsy [final_answer]).
    - [Selection]: [handleSelection] (lines 18-24) and its template.
      Theorems C19-C21.
    - [Listeners]: the document's listener list with the DOM's
      [addEventListener] (duplicates ignored) and [removeEventListener],
      the effect [selection_effect] and its cleanup [selection_cleanup],
      event dispatch [dispatch_targets].  Theorems C25-C27.
    - [Widget]: the component as a whole.  A [World] holds the mounted
      instance (instance id and effect-run id), its state, the document's
      listeners, the invocations of [sendQuery] in flight ([Task]: owner
      instance and the await it is suspended at), the requests sent and the
      console.  [step] handles one [Event]: mount, unmount, StrictMode's
      effect re-run, a listener added by the host page, typing, a click
      (delivered only while the button is enabled), a document
      [mouseup]/[keyup] with the current selection, and the settlement of
      one awaited promise.  Setter calls apply only to the instance whose
      closure made them and only while it is mounted; in-flight requests
      survive unmount.  [reachable] is the closure of [step] from the
      unmounted initial world; the invariant [Inv] is proved for every
      reachable world by rule induction.  Theorems: C1 ([isLoading] exactly
      while one request of the instance is in flight, never two), C14
      (the document's [handleSelection] listeners are exactly the mounted
      instance's current effect run's: none after unmount), and C2, the
      refinement: each event is one step of the specification's
      [Idle]/[Busy] controller ([ctrl_step], under the labelling [label] and
      the abstraction [phase]), and the requests sent are one POST per
      accepted trigger.
    - [Render]: the JSX of lines 69-96.  [chatbot_element] evaluates the
      JSX on a state into React elements ([RNode]), evaluating
      [sources.length > 0 && sources.map(...)] ([length_gt_zero],
      [sources_block]), which throws on nullish or non-array sources;
      [reconcile] turns elements into document nodes ([VNode]) as React
      does with interpolated values ([render_child]: strings and numbers as
      text, booleans and nullish values as nothing, arrays element-wise,
      objects an error); [render] composes them.  The CSS module's class
      names, [Number::toString] and [ToNumber] on strings are section
      variables.  Theorems: C15 (with array sources the view renders iff
      no object is shown), C16-C18 (the button's [disabled] attribute is
      [isLoading], the guard [Widget.click] applies, and its label; the
      text area shows [query]; [Processing...] replaces the answer while
      loading; one keyed tag per source, the sources block only for a
      non-empty list), C4 (over every run whose JSON bodies have the
      documented shape the view renders in every state reached, by an
      invariant of [step]) and C5 (a backend answering [sources] with a
      string crashes the view, in a reachable world).

    ** Bounds and fuel

    Every function is structurally recursive; nothing needs fuel.  Code
    units are [Z]s, bounded by [code_unit] (0 <= c < 65536) where it
    matters: the JSON round trip (C22, C23) needs it because an escape has
    four hexadecimal digits; the well-formedness of the output (C24) holds
    for every list.

    ** Not modelled

    The CSS module (its class names are a parameter); React's reconciler
    beyond what the view needs (keys are kept as attributes, their
    uniqueness warning is not modelled) and what happens after a render
    error (React unmounts the tree; the model stops at the throw); the
    backend service,
    [fetch] and [JSON.parse], whose results enter as the settlement events
    of the two promises; the hosting site, which appears only through
    mount/unmount and its own document listeners.  Property access
    [get_named] is modelled for keys that no prototype defines, which are
    the keys the code reads ([final_answer], [sources]). *)

From Stdlib Require Export ZArith.
From stdpp Require Export base list decidable.
From Stdlib Require Import String Ascii.
Export String.StringSyntax.
From Stdlib Require Import Lia.

Open Scope Z_scope.

(** ** JavaScript strings

    A JavaScript string is a sequence of UTF-16 code units; we keep each unit
    as a [Z] and state the width as the predicate [code_unit]. *)

Definition jsstr := list Z.

Definition code_unit (c : Z) : Prop := 0 <= c < 65536.

Definition code_units (s : jsstr) : Prop := Forall code_unit s.

(** Source literals of [Chatbot.jsx] are ASCII: each character becomes the
    code unit of its ASCII value. *)
Definition lit (s : string) : jsstr :=
  map (fun a => Z.of_nat (nat_of_ascii a)) (list_ascii_of_string s).

Declare Scope js_scope.
Delimit Scope js_scope with js.
Notation "‹ s ›" := (lit s%string) (format "‹ s ›") : js_scope.
Open Scope js_scope.

(** The double-quote code unit, written apart because the source's template
    literals put it around interpolated text. *)
Definition u_quote : Z := 34.

Create HintDb chatbot.
Create Rewrite HintDb chatbot_rw.

(** ** Generic lemmas *)

Lemma lit_code_units (s : string) : code_units (lit s).
Proof.
  unfold code_units, lit. apply Forall_forall. intros c Hc.
  apply in_map_iff in Hc as [a [<- _]].
  pose proof (nat_ascii_bounded a). unfold code_unit. lia.
Qed.

Lemma code_units_app (s t : jsstr) :
  code_units (s ++ t) <-> code_units s /\ code_units t.
Proof. apply Forall_app. Qed.

Lemma code_units_cons (c : Z) (s : jsstr) :
  code_units (c :: s) <-> code_unit c /\ code_units s.
Proof. unfold code_units. split; [inversion 1; auto | intros []; constructor; auto]. Qed.

#[export] Hint Resolve lit_code_units : chatbot.
#[export] Hint Rewrite code_units_app code_units_cons : chatbot_rw.

(** [rev] splits: the last element of a list is the head of its reverse. *)
Lemma rev_cons_eq_app {A} (l : list A) (x : A) (r : list A) :
  rev l = x :: r -> l = rev r ++ [x].
Proof. intros H. rewrite <- (rev_involutive l), H. reflexivity. Qed.

Ltac invc H := inversion H; subst; clear H.

(** Case analysis on the boolean comparisons of [Z] left in the goal, each
    case closed by [lia] when its hypotheses are contradictory. *)
Ltac z_cases :=
  repeat match goal with
  | |- context [?a =? ?b] => destruct (Z.eqb_spec a b)
  | |- context [?a <? ?b] => destruct (Z.ltb_spec a b)
  | |- context [?a <=? ?b] => destruct (Z.leb_spec a b)
  end; simpl in *; try done; try lia.
