(* ===== verification/JsString.v ===== *)
(** * [String.prototype.trim] as the component calls it

    [Chatbot.jsx] trims strings twice: the selected text in [handleSelection]
    (line 19, [window.getSelection()?.toString().trim()]) and the question in
    [sendQuery] (line 34, [query.trim()]).  This file models ECMA-262's
    TrimString on UTF-16 code units and proves its specification: the result
    is the unique infix obtained by removing a white-space prefix and a
    white-space suffix, it has no white space at either end, and it is
    empty exactly on white-space strings. *)

From S2P Require Import Prelude.

(** ECMA-262 WhiteSpace (TAB, VT, FF, SP, NBSP, ZWNBSP and the Unicode
    [Zs] category) and LineTerminator (LF, CR, LS, PS).  All of them are BMP
    code points outside the surrogate range, so testing single code units is
    the same as testing the decoded code points. *)
Definition is_js_whitespace (c : Z) : bool :=
  (c =? 9) || (c =? 11) || (c =? 12) || (c =? 32) || (c =? 160)
  || (c =? 5760) || ((8192 <=? c) && (c <=? 8202)) || (c =? 8239)
  || (c =? 8287) || (c =? 12288) || (c =? 65279)
  || (c =? 10) || (c =? 13) || (c =? 8232) || (c =? 8233).

Abbreviation ws c := (is_js_whitespace c = true).

Fixpoint trim_start (s : jsstr) : jsstr :=
  match s with
  | [] => []
  | c :: r => if is_js_whitespace c then trim_start r else s
  end.

Definition trim_end (s : jsstr) : jsstr := rev (trim_start (rev s)).

(** [TrimString(S, start+end)]: leading then trailing white space removed. *)
Definition js_trim (s : jsstr) : jsstr := trim_end (trim_start s).

(** The first code unit, if any, is not white space. *)
Definition head_ok (t : jsstr) : bool :=
  match t with
  | [] => true
  | c :: _ => negb (is_js_whitespace c)
  end.

(** A string with no white space at either end. *)
Definition edge_clean (t : jsstr) : bool := head_ok t && head_ok (rev t).

(** ** Lemmas on [trim_start] *)

Lemma trim_start_split (s : jsstr) :
  exists pre, s = pre ++ trim_start s /\ Forall (fun c => ws c) pre.
Proof.
  induction s as [|c r IH]; [by exists [] |]. simpl.
  destruct (is_js_whitespace c) eqn:Hc.
  - destruct IH as [pre [Hs Hpre]]. exists (c :: pre). rewrite Hs at 1.
    split; [done | by constructor].
  - by exists [].
Qed.

Lemma trim_start_app_ws (pre t : jsstr) :
  Forall (fun c => ws c) pre -> trim_start (pre ++ t) = trim_start t.
Proof. induction 1 as [|c pre Hc _ IH]; simpl; [done | by rewrite Hc]. Qed.

Lemma trim_start_head (s : jsstr) (c : Z) (r : jsstr) :
  trim_start s = c :: r -> is_js_whitespace c = false.
Proof.
  induction s as [|d s IH]; simpl; [done |].
  destruct (is_js_whitespace d) eqn:Hd; [exact IH | by intros [= -> _]].
Qed.

Lemma trim_start_nil (s : jsstr) :
  trim_start s = [] <-> Forall (fun c => ws c) s.
Proof.
  induction s as [|c s IH]; simpl; [split; auto |].
  destruct (is_js_whitespace c) eqn:Hc; try rewrite IH.
  - split; [by constructor | by inversion 1].
  - split; [done | inversion 1; congruence].
Qed.

Lemma trim_start_fix (t : jsstr) : head_ok t = true -> trim_start t = t.
Proof. destruct t as [|c t]; simpl; [done |]. by destruct (is_js_whitespace c). Qed.

Lemma trim_start_head_ok (s : jsstr) : head_ok (trim_start s) = true.
Proof.
  destruct (trim_start s) as [|c r] eqn:E; [done |].
  simpl. by rewrite (trim_start_head _ _ _ E).
Qed.

Lemma head_ok_app (l r : jsstr) : l <> [] -> head_ok (l ++ r) = head_ok l.
Proof. by destruct l. Qed.

(** Trimming the start keeps a clean end, unless it removes everything. *)
Lemma trim_start_keeps_end (l : jsstr) :
  head_ok (rev l) = true -> head_ok (rev (trim_start l)) = true.
Proof.
  induction l as [|c l IH]; simpl; [done |].
  destruct (is_js_whitespace c) eqn:Hc; [| done].
  destruct l as [|d l]; [done |]. intros H. apply IH.
  rewrite head_ok_app in H; [done |].
  intros Hn. apply (f_equal (@length Z)) in Hn. rewrite length_rev in Hn. done.
Qed.

Lemma Forall_ws_rev (l : jsstr) :
  Forall (fun c => ws c) (rev l) <-> Forall (fun c => ws c) l.
Proof. split; intros H; [rewrite <- (rev_involutive l)|]; by apply Forall_rev. Qed.

#[export] Hint Resolve trim_start_app_ws trim_start_fix : chatbot.

(** ** The specification of [js_trim] *)

(** The input is the trimmed string surrounded by white space. *)
Lemma js_trim_decompose (s : jsstr) :
  exists pre suf, s = pre ++ js_trim s ++ suf /\
    Forall (fun c => ws c) pre /\ Forall (fun c => ws c) suf.
Proof.
  destruct (trim_start_split s) as [pre [Hs Hpre]].
  destruct (trim_start_split (rev (trim_start s))) as [pre2 [Hs2 Hpre2]].
  exists pre, (rev pre2). split; [| split; [done | by apply Forall_ws_rev]].
  rewrite Hs at 1. f_equal. unfold js_trim, trim_end.
  rewrite <- rev_app_distr, <- Hs2. by rewrite rev_involutive.
Qed.

(** C30: the result has no white space at either end. *)
Lemma js_trim_edge_clean (s : jsstr) : edge_clean (js_trim s) = true.
Proof.
  unfold edge_clean, js_trim, trim_end. rewrite rev_involutive.
  rewrite trim_start_head_ok, trim_start_keeps_end; [done |].
  rewrite rev_involutive. apply trim_start_head_ok.
Qed.

(** C28: the result is unique: any white-space prefix and suffix
    around an edge-clean string are exactly what [trim] removes. *)
Lemma js_trim_unique (pre t suf : jsstr) :
  Forall (fun c => ws c) pre -> Forall (fun c => ws c) suf ->
  edge_clean t = true -> js_trim (pre ++ t ++ suf) = t.
Proof.
  intros Hpre Hsuf Ht. apply andb_prop in Ht as [Hh Hr].
  unfold js_trim, trim_end. rewrite trim_start_app_ws by done.
  destruct t as [|c t].
  - simpl. by rewrite (proj2 (trim_start_nil suf) Hsuf).
  - rewrite (trim_start_fix ((c :: t) ++ suf)) by (simpl in *; done).
    rewrite rev_app_distr, trim_start_app_ws by (by apply Forall_ws_rev).
    rewrite (trim_start_fix (rev (c :: t))) by done. apply rev_involutive.
Qed.

(** C29: [trim] returns the empty string exactly on strings made of
    white space only (the condition [sendQuery] and [handleSelection] test). *)
Lemma js_trim_nil_iff (s : jsstr) : js_trim s = [] <-> Forall (fun c => ws c) s.
Proof.
  split.
  - intros H. destruct (js_trim_decompose s) as [pre [suf [Hs [Hp Hq]]]].
    rewrite H in Hs. subst s. by apply Forall_app.
  - intros H. rewrite <- (app_nil_r s). rewrite <- (app_nil_r (s ++ [])).
    rewrite <- app_assoc. apply js_trim_unique; [done | constructor | done].
Qed.

Lemma js_trim_unique_witness :
  js_trim ([32; 9] ++ ‹"a b"› ++ [10; 12288]) = ‹"a b"›.
Proof. apply js_trim_unique; [repeat constructor | repeat constructor | reflexivity]. Defined.
