(* ===== verification/JsValue.v ===== *)
(** * JavaScript values, errors and the operators [sendQuery] applies

    [sendQuery] (Chatbot.jsx, lines 54-62) receives the value [data] that
    [response.json()] produced, reads [data.final_answer] and
    [data.sources], applies [||] to each, and in its [catch] block reads
    [error.message].  This file models the values JSON parsing can produce
    ([jsval], after qcert's JSON model, with IEEE doubles for numbers), the
    abrupt completions of ECMA-262 ([completion]), ToBoolean and [||], and
    property access with its TypeError on [null]/[undefined].  The engine's
    TypeError text is host-defined and comes through the [EngineMessages]
    interface, with V8's wording as an instance. *)

From S2P Require Import Prelude.
From Stdlib Require Import PrimFloat.

Set Warnings "-register-all".

Inductive jsval :=
| JUndefined
| JNull
| JBool (b : bool)
| JNumber (n : float)
| JString (s : jsstr)
| JArray (vs : list jsval)
| JObject (props : list (jsstr * jsval)).

(** An error object: its [name] and its [message] property. *)
Record JsError := mkError { err_name : jsstr; err_message : jsstr }.

(** [new Error(msg)]. *)
Definition new_Error (msg : jsstr) : JsError := mkError ‹"Error"› msg.

(** Normal and throw completions. *)
Inductive completion (A : Type) :=
| Normal (a : A)
| Throw (e : JsError).
Arguments Normal {A} a.
Arguments Throw {A} e.

(** The texts of the TypeErrors an engine throws for [v.key] on a nullish
    [v] and for calling [callee] when it is not a function; ECMA-262 leaves
    them to the implementation. *)
Class EngineMessages := {
  msg_read_nullish : jsval -> jsstr -> jsstr;
  msg_not_a_function : jsstr -> jsstr
}.

(** V8: [Cannot read properties of null (reading 'final_answer')] and
    [sources.map is not a function]. *)
#[export] Instance v8_messages : EngineMessages := {
  msg_read_nullish v key :=
    ‹"Cannot read properties of "› ++
    (match v with JNull => ‹"null"› | _ => ‹"undefined"› end) ++
    ‹" (reading '"› ++ key ++ ‹"')"›;
  msg_not_a_function callee := callee ++ ‹" is not a function"›
}.

(** ToBoolean (ECMA-262 7.1.2): [undefined], [null], [false], [+0], [-0],
    [NaN] and the empty string are falsy; everything else, every object and
    array included, is truthy. *)
Definition to_boolean (v : jsval) : bool :=
  match v with
  | JUndefined | JNull => false
  | JBool b => b
  | JNumber n => negb (PrimFloat.is_zero n || PrimFloat.is_nan n)
  | JString s => negb (bool_decide (s = []))
  | JArray _ | JObject _ => true
  end.

(** [a || b]: [a] when it is truthy, [b] otherwise (both operands here are
    side-effect free, so the lazy evaluation of [b] is not observable). *)
Definition js_or (a b : jsval) : jsval := if to_boolean a then a else b.

(** The value of property [key] of an object [JSON.parse] built from
    [props] in source order: InternalizeJSONProperty's CreateDataProperty
    overwrites an earlier binding of the same key, so the last one wins. *)
Fixpoint lookup_prop (key : jsstr) (props : list (jsstr * jsval)) : option jsval :=
  match props with
  | [] => None
  | (k, v) :: rest =>
      match lookup_prop key rest with
      | Some x => Some x
      | None => if bool_decide (k = key) then Some v else None
      end
  end.

Section Get.
Context `{EngineMessages}.

(** [v.key] for a key that names no property of [Object.prototype],
    [Array.prototype], [String.prototype], [Number.prototype] or
    [Boolean.prototype] and no array index or [length]: the keys
    [final_answer] and [sources] of line 57-58.  Nullish receivers throw a
    TypeError; objects answer their own property or [undefined]; other
    primitives and arrays answer [undefined]. *)
Definition get_named (v : jsval) (key : jsstr) : completion jsval :=
  match v with
  | JUndefined | JNull => Throw (mkError ‹"TypeError"› (msg_read_nullish v key))
  | JObject props =>
      Normal (match lookup_prop key props with Some x => x | None => JUndefined end)
  | _ => Normal JUndefined
  end.
End Get.

(** Induction on values through the elements of arrays and the values of
    objects (the generated principle does not see inside the lists). *)
Section JsvalInd.
Variable P : jsval -> Prop.
Hypothesis P_undefined : P JUndefined.
Hypothesis P_null : P JNull.
Hypothesis P_bool : forall b, P (JBool b).
Hypothesis P_number : forall n, P (JNumber n).
Hypothesis P_string : forall s, P (JString s).
Hypothesis P_array : forall vs, Forall P vs -> P (JArray vs).
Hypothesis P_object : forall ps, Forall (fun kv => P (snd kv)) ps -> P (JObject ps).

Fixpoint jsval_nested_ind (v : jsval) : P v :=
  match v with
  | JUndefined => P_undefined
  | JNull => P_null
  | JBool b => P_bool b
  | JNumber n => P_number n
  | JString s => P_string s
  | JArray vs =>
      P_array vs ((fix go (vs : list jsval) : Forall P vs :=
                     match vs with
                     | [] => @Forall_nil _ _
                     | v :: vs => @Forall_cons _ P v vs (jsval_nested_ind v) (go vs)
                     end) vs)
  | JObject ps =>
      P_object ps ((fix go (ps : list (jsstr * jsval)) : Forall (fun kv => P (snd kv)) ps :=
                      match ps with
                      | [] => @Forall_nil _ _
                      | kv :: ps => @Forall_cons _ (fun kv => P (snd kv)) kv ps (jsval_nested_ind (snd kv)) (go ps)
                      end) ps)
  end.
End JsvalInd.
