(* ===== verification/Effects.v ===== *)
(** * React state, the update queue and the console: the effects of a handler

    The component's state (Chatbot.jsx, lines 11-14) is four [useState]
    cells; a handler never writes them directly but calls their setters,
    which enqueue updates that React applies in order before the next render
    (all setters here are called with values, not updater functions, so the
    queue's result is the last value per cell).  A synchronous run of
    handler code is therefore modelled as the list of updates it enqueues,
    the lines it prints with [console.error], and its completion (normal or
    throw): the writer/exception monad [Seg] below, with its own notation in
    [seg_scope] and the [try/catch/finally] combinator of ECMA-262 14.15. *)

From S2P Require Import Prelude JsValue.

(** ** Component state *)

Record UI := mkUI {
  query : jsstr;        (** [const [query, setQuery] = useState('')] *)
  answer : jsval;       (** [const [answer, setAnswer] = useState('Ask ...')] *)
  sources : jsval;      (** [const [sources, setSources] = useState([])] *)
  isLoading : bool      (** [const [isLoading, setIsLoading] = useState(false)] *)
}.

Definition initial_answer : jsval := JString ‹"Ask a question about the book content!"›.

Definition initial_ui : UI := mkUI [] initial_answer (JArray []) false.

(** One call of a setter. *)
Inductive Update :=
| SetQuery (s : jsstr)
| SetAnswer (v : jsval)
| SetSources (v : jsval)
| SetIsLoading (b : bool).

Definition apply_update (ui : UI) (u : Update) : UI :=
  match u with
  | SetQuery s => mkUI s (answer ui) (sources ui) (isLoading ui)
  | SetAnswer v => mkUI (query ui) v (sources ui) (isLoading ui)
  | SetSources v => mkUI (query ui) (answer ui) v (isLoading ui)
  | SetIsLoading b => mkUI (query ui) (answer ui) (sources ui) b
  end.

(** React processes the queued updates in order. *)
Definition apply_updates (ui : UI) (us : list Update) : UI := fold_left apply_update us ui.

(** [console.error("RAG Query Failed:", error)] prints a label and the error. *)
Record LogLine := mkLog { log_label : jsstr; log_error : JsError }.

(** ** The handler monad *)

Record Eff := mkEff { eff_updates : list Update; eff_log : list LogLine }.

Definition eff_none : Eff := mkEff [] [].

Definition eff_app (a b : Eff) : Eff :=
  mkEff (eff_updates a ++ eff_updates b) (eff_log a ++ eff_log b).

Definition Seg (A : Type) : Type := (Eff * completion A)%type.

Definition seg_ret {A} (a : A) : Seg A := (eff_none, Normal a).

Definition seg_throw {A} (e : JsError) : Seg A := (eff_none, Throw e).

Definition seg_bind {A B} (m : Seg A) (k : A -> Seg B) : Seg B :=
  match m with
  | (e1, Normal a) => let '(e2, r) := k a in (eff_app e1 e2, r)
  | (e1, Throw e) => (e1, Throw e)
  end.

(** A setter call. *)
Definition set_state (u : Update) : Seg unit := (mkEff [u] [], Normal tt).

Definition console_error (label : jsstr) (e : JsError) : Seg unit :=
  (mkEff [] [mkLog label e], Normal tt).

(** A completion lifted into the monad: [Throw] raises. *)
Definition seg_of {A} (c : completion A) : Seg A := (eff_none, c).

Declare Scope seg_scope.
Delimit Scope seg_scope with seg.
Notation "x <- m ;; k" := (seg_bind m (fun x => k))
  (at level 100, m at next level, right associativity) : seg_scope.
Notation "m ;; k" := (seg_bind m (fun _ => k))
  (at level 100, right associativity) : seg_scope.
Open Scope seg_scope.

(** [try { body } catch (e) { handler(e) } finally { fin }] where [fin]
    completes normally: the finally block runs after the body or after the
    handler, and the completion is the one of the body or the handler. *)
Definition try_catch_finally {A} (body : Seg A) (handler : JsError -> Seg A)
    (fin : Seg unit) : Seg A :=
  let '(e1, r1) := body in
  let '(e2, r2) := match r1 with
                   | Normal a => (eff_none, Normal a)
                   | Throw e => handler e
                   end in
  let '(e3, r3) := fin in
  match r3 with
  | Normal _ => (eff_app e1 (eff_app e2 e3), r2)
  | Throw e => (eff_app e1 (eff_app e2 e3), Throw e)
  end.

(** ** Lemmas *)

Lemma apply_updates_app (ui : UI) (us vs : list Update) :
  apply_updates ui (us ++ vs) = apply_updates (apply_updates ui us) vs.
Proof. apply fold_left_app. Qed.

Lemma eff_app_none_l (e : Eff) : eff_app eff_none e = e.
Proof. by destruct e. Qed.

Lemma eff_app_none_r (e : Eff) : eff_app e eff_none = e.
Proof. destruct e; unfold eff_app; simpl. by rewrite !app_nil_r. Qed.

Lemma eff_app_assoc (a b c : Eff) : eff_app a (eff_app b c) = eff_app (eff_app a b) c.
Proof. unfold eff_app; simpl. by rewrite !app_assoc. Qed.

Lemma seg_bind_ret_l {A B} (a : A) (k : A -> Seg B) : seg_bind (seg_ret a) k = k a.
Proof. unfold seg_bind, seg_ret. destruct (k a). by rewrite eff_app_none_l. Qed.

Lemma seg_bind_ret_r {A} (m : Seg A) : seg_bind m seg_ret = m.
Proof. destruct m as [e [a|x]]; simpl; [by rewrite eff_app_none_r | done]. Qed.

Lemma seg_bind_assoc {A B C} (m : Seg A) (k : A -> Seg B) (h : B -> Seg C) :
  seg_bind (seg_bind m k) h = seg_bind m (fun a => seg_bind (k a) h).
Proof.
  destruct m as [e1 [a|x]]; simpl; [| done].
  destruct (k a) as [e2 [b|y]]; simpl; [| done].
  destruct (h b) as [e3 r]. by rewrite eff_app_assoc.
Qed.

#[export] Hint Rewrite apply_updates_app eff_app_none_l eff_app_none_r
  @seg_bind_ret_l @seg_bind_ret_r @seg_bind_assoc : chatbot_rw.
