(* ===== verification/Json.v ===== *)
(** * The request body: [JSON.stringify({ query })]

    [sendQuery] sends [body: JSON.stringify({ query })] (Chatbot.jsx,
    line 47).  This file models ECMA-262's QuoteJSONString (25.5.2.3, in its
    ES2019 "well-formed" version that escapes lone surrogates) on UTF-16 code
    units, the serialization of the one-property object, and a decoder of
    JSON string literals following RFC 8259 (section 7) as the server reads
    them.  The theorems show that the server decodes exactly the question the
    user typed, whatever its characters, and that the body is well-formed
    UTF-16 with no raw control character. *)

From S2P Require Import Prelude.

(** ** Encoder *)

(** Lower-case hexadecimal digit of [n] (0 <= n < 16). *)
Definition hex_digit (n : Z) : Z := if n <? 10 then 48 + n else 87 + n.

(** UnicodeEscape(C): [\u] and four lower-case hexadecimal digits. *)
Definition unicode_escape (c : Z) : jsstr :=
  [92; 117; hex_digit (c / 4096 mod 16); hex_digit (c / 256 mod 16);
   hex_digit (c / 16 mod 16); hex_digit (c mod 16)].

Definition is_high_surrogate (c : Z) : bool := (55296 <=? c) && (c <=? 56319).
Definition is_low_surrogate (c : Z) : bool := (56320 <=? c) && (c <=? 57343).

(** One code point that is not half of a surrogate pair: the table of
    short escapes, [\uXXXX] for controls and lone surrogates, itself
    otherwise. *)
Definition escape_unit (c : Z) : jsstr :=
  if c =? 8 then [92; 98]
  else if c =? 9 then [92; 116]
  else if c =? 10 then [92; 110]
  else if c =? 12 then [92; 102]
  else if c =? 13 then [92; 114]
  else if c =? 34 then [92; 34]
  else if c =? 92 then [92; 92]
  else if (c <? 32) || is_high_surrogate c || is_low_surrogate c then unicode_escape c
  else [c].

(** The body of QuoteJSONString: a high surrogate followed by a low one is a
    supplementary code point and is copied; any other code unit goes
    through [escape_unit]. *)
Fixpoint quote_units (s : jsstr) : jsstr :=
  match s with
  | [] => []
  | c :: rest =>
      if is_high_surrogate c then
        match rest with
        | d :: rest' =>
            if is_low_surrogate d then c :: d :: quote_units rest'
            else unicode_escape c ++ quote_units rest
        | [] => unicode_escape c
        end
      else escape_unit c ++ quote_units rest
  end.

Definition quote_json_string (s : jsstr) : jsstr := [u_quote] ++ quote_units s ++ [u_quote].

(** [JSON.stringify({ query })]: one property, no gap, so [{"query":...}]. *)
Definition stringify_query (q : jsstr) : jsstr :=
  [123] ++ quote_json_string ‹"query"› ++ [58] ++ quote_json_string q ++ [125].

(** ** Decoder (RFC 8259 string literals) *)

Definition hex_value (c : Z) : option Z :=
  if (48 <=? c) && (c <=? 57) then Some (c - 48)
  else if (97 <=? c) && (c <=? 102) then Some (c - 87)
  else if (65 <=? c) && (c <=? 70) then Some (c - 55)
  else None.

Definition hex4 (a b c d : Z) : option Z :=
  match hex_value a, hex_value b, hex_value c, hex_value d with
  | Some x, Some y, Some z, Some w => Some (x * 4096 + y * 256 + z * 16 + w)
  | _, _, _, _ => None
  end.

(** The character a two-character escape [\e] stands for. *)
Definition short_escape (e : Z) : option Z :=
  if e =? 34 then Some 34 else if e =? 92 then Some 92
  else if e =? 47 then Some 47 else if e =? 98 then Some 8
  else if e =? 102 then Some 12 else if e =? 110 then Some 10
  else if e =? 114 then Some 13 else if e =? 116 then Some 9
  else None.

Definition cons_fst (c : Z) (o : option (jsstr * jsstr)) : option (jsstr * jsstr) :=
  match o with Some (t, r) => Some (c :: t, r) | None => None end.

(** The characters of a string literal up to its closing quote: the decoded
    text and what follows the quote. *)
Fixpoint unquote_units (s : jsstr) : option (jsstr * jsstr) :=
  match s with
  | [] => None
  | c :: rest =>
      if c =? 34 then Some ([], rest)
      else if c =? 92 then
        match rest with
        | e :: rest' =>
            if e =? 117 then
              match rest' with
              | h1 :: h2 :: h3 :: h4 :: rest'' =>
                  match hex4 h1 h2 h3 h4 with
                  | Some u => cons_fst u (unquote_units rest'')
                  | None => None
                  end
              | _ => None
              end
            else match short_escape e with
                 | Some u => cons_fst u (unquote_units rest')
                 | None => None
                 end
        | [] => None
        end
      else if c <? 32 then None
      else cons_fst c (unquote_units rest)
  end.

Definition parse_json_string (s : jsstr) : option (jsstr * jsstr) :=
  match s with
  | c :: rest => if c =? 34 then unquote_units rest else None
  | [] => None
  end.

(** [{"query":<string>}] read back by a server. *)
Definition parse_query_body (s : jsstr) : option jsstr :=
  match parse_json_string (drop 1 s) with
  | Some (k, rest) =>
      if bool_decide (take 1 s = [123] /\ k = ‹"query"›) then
        match rest with
        | c :: rest' =>
            if c =? 58 then
              match parse_json_string rest' with
              | Some (q, [125]) => Some q
              | _ => None
              end
            else None
        | [] => None
        end
      else None
  | None => None
  end.

(** Every high surrogate is followed by a low one and no low surrogate
    stands alone. *)
Fixpoint well_formed_utf16 (s : jsstr) : bool :=
  match s with
  | [] => true
  | c :: rest =>
      if is_high_surrogate c then
        match rest with
        | d :: r => is_low_surrogate d && well_formed_utf16 r
        | [] => false
        end
      else negb (is_low_surrogate c) && well_formed_utf16 rest
  end.

(** A code unit that may appear raw in a JSON text and is no surrogate. *)
Definition plain_unit (u : Z) : bool :=
  (32 <=? u) && negb (is_high_surrogate u) && negb (is_low_surrogate u).

(** A question with a quote, a newline, a lone surrogate and an emoji. *)
Definition demo_question : jsstr := ‹"Why "› ++ [34; 10; 55296; 55357; 56832].

(** ** Round trip *)

Lemma hex_value_digit (n : Z) : 0 <= n < 16 -> hex_value (hex_digit n) = Some n.
Proof. intros Hn. unfold hex_digit, hex_value. z_cases; f_equal; lia. Qed.

Lemma hex4_unicode_digits (c : Z) :
  code_unit c ->
  hex4 (hex_digit (c / 4096 mod 16)) (hex_digit (c / 256 mod 16))
       (hex_digit (c / 16 mod 16)) (hex_digit (c mod 16)) = Some c.
Proof.
  unfold code_unit. intros Hc. unfold hex4.
  rewrite !hex_value_digit by (apply Z.mod_pos_bound; lia). f_equal.
  rewrite (Z.mod_small (c / 4096)) by
    (split; [apply Z.div_pos | apply Z.div_lt_upper_bound]; lia).
  pose proof (Z.div_mod c 16 ltac:(lia)).
  pose proof (Z.div_mod (c / 16) 16 ltac:(lia)).
  pose proof (Z.div_mod (c / 256) 16 ltac:(lia)).
  rewrite Z.div_div in * by lia.
  change (16 * 16) with 256 in *. change (256 * 16) with 4096 in *. lia.
Qed.

Lemma unquote_unicode_escape (c : Z) (t : jsstr) :
  code_unit c -> unquote_units (unicode_escape c ++ t) = cons_fst c (unquote_units t).
Proof. intros Hc. simpl. by rewrite hex4_unicode_digits. Qed.

(** A code unit that needs no escape decodes as itself. *)
Lemma unquote_plain (c : Z) (t : jsstr) :
  32 <= c -> c <> 34 -> c <> 92 -> unquote_units (c :: t) = cons_fst c (unquote_units t).
Proof. intros. simpl. z_cases. Qed.

Lemma unquote_escape_unit (c : Z) (t : jsstr) :
  code_unit c -> unquote_units (escape_unit c ++ t) = cons_fst c (unquote_units t).
Proof.
  intros Hc. unfold escape_unit.
  repeat match goal with
  | |- context [if ?a =? ?b then _ else _] => destruct (Z.eqb_spec a b); [subst; reflexivity |]
  end.
  destruct ((c <? 32) || is_high_surrogate c || is_low_surrogate c) eqn:E.
  - by apply unquote_unicode_escape.
  - apply unquote_plain; [| done..]. apply orb_false_iff in E as [E _].
    apply orb_false_iff in E as [E _]. apply Z.ltb_ge in E. done.
Qed.

(** Induction following the recursion of [quote_units]: a surrogate pair
    is consumed in one step. *)
Lemma quote_units_ind (P : jsstr -> Prop) :
  P [] ->
  (forall c, is_high_surrogate c = true -> P [c]) ->
  (forall c d s, is_high_surrogate c = true -> is_low_surrogate d = true ->
     P s -> P (c :: d :: s)) ->
  (forall c d s, is_high_surrogate c = true -> is_low_surrogate d = false ->
     P (d :: s) -> P (c :: d :: s)) ->
  (forall c s, is_high_surrogate c = false -> P s -> P (c :: s)) ->
  forall s, P s.
Proof.
  intros Hnil Hone Hpair Hlone Hother s.
  remember (length s) as n eqn:Hn. revert s Hn.
  induction n as [n IH] using (well_founded_induction lt_wf). intros s ->.
  destruct s as [|c s]; [done |].
  destruct (is_high_surrogate c) eqn:Eh; [| apply Hother; [done | eapply IH; [| reflexivity]; simpl; lia]].
  destruct s as [|d s]; [by apply Hone |].
  destruct (is_low_surrogate d) eqn:El.
  - apply Hpair; [done.. |]. eapply IH; [| reflexivity]; simpl; lia.
  - apply Hlone; [done.. |]. eapply IH; [| reflexivity]; simpl; lia.
Qed.

Lemma high_surrogate_bounds (c : Z) :
  is_high_surrogate c = true -> 55296 <= c <= 56319.
Proof. unfold is_high_surrogate. intros [H1 H2]%andb_prop. apply Z.leb_le in H1, H2. lia. Qed.

Lemma low_surrogate_bounds (c : Z) :
  is_low_surrogate c = true -> 56320 <= c <= 57343.
Proof. unfold is_low_surrogate. intros [H1 H2]%andb_prop. apply Z.leb_le in H1, H2. lia. Qed.

Lemma quote_units_equation (c : Z) (s : jsstr) :
  quote_units (c :: s) =
  if is_high_surrogate c then
    match s with
    | d :: s' => if is_low_surrogate d then c :: d :: quote_units s'
                 else unicode_escape c ++ quote_units s
    | [] => unicode_escape c
    end
  else escape_unit c ++ quote_units s.
Proof. reflexivity. Qed.

(** C23: the server's decoder reads back exactly the quoted code
    units, lone surrogates and control characters included. *)
Theorem quote_units_roundtrip (s rest : jsstr) :
  code_units s -> unquote_units (quote_units s ++ u_quote :: rest) = Some (s, rest).
Proof.
  induction s as [|c Eh|c d s Eh El IH|c d s Eh El IH|c s Eh IH] using quote_units_ind;
    intros Hs; [done | ..]; rewrite quote_units_equation, Eh; rewrite ?El; cbv iota beta.
  - apply code_units_cons in Hs as [Hc _]. by rewrite unquote_unicode_escape.
  - apply code_units_cons in Hs as [_ [_ Hs]%code_units_cons].
    apply high_surrogate_bounds in Eh. apply low_surrogate_bounds in El.
    simpl app. rewrite unquote_plain, unquote_plain, IH by (done || lia). done.
  - apply code_units_cons in Hs as [Hc Hs].
    by rewrite <- app_assoc, unquote_unicode_escape, IH.
  - apply code_units_cons in Hs as [Hc Hs].
    by rewrite <- app_assoc, unquote_escape_unit, IH.
Qed.

(** C22: the body read back by the server is the question, unchanged. *)
Theorem stringify_query_roundtrip (q : jsstr) :
  code_units q -> parse_query_body (stringify_query q) = Some q.
Proof.
  intros Hq. unfold parse_query_body, stringify_query, quote_json_string.
  cbn [drop take app]. unfold parse_json_string, u_quote. cbn [Z.eqb Pos.eqb].
  rewrite <- !app_assoc. cbn [app]. rewrite quote_units_roundtrip by apply lit_code_units.
  rewrite bool_decide_eq_true_2 by done. cbn [Z.eqb Pos.eqb].
  rewrite quote_units_roundtrip by done. done.
Qed.

(** ** Well-formedness of the output *)

Lemma well_formed_utf16_app (a b : jsstr) :
  well_formed_utf16 a = true -> well_formed_utf16 b = true ->
  well_formed_utf16 (a ++ b) = true.
Proof.
  intros Ha Hb. induction a as [|c Eh|c d s Eh El IH|c d s Eh El IH|c s Eh IH]
    using quote_units_ind; simpl in *; rewrite ?Eh, ?El in *; simpl in *; try done.
  - by apply IH.
  - apply andb_prop in Ha as [Hc Ha]. rewrite Hc. by apply IH.
Qed.

Lemma well_formed_utf16_plain (a : jsstr) :
  Forall (fun u => plain_unit u = true) a -> well_formed_utf16 a = true.
Proof.
  induction 1 as [|u a Hu _ IH]; [done |]. unfold plain_unit in Hu.
  apply andb_prop in Hu as [[_ Hh]%andb_prop Hl]. simpl.
  apply negb_true_iff in Hh, Hl. by rewrite Hh, Hl, IH.
Qed.

Lemma hex_digit_plain (n : Z) : 0 <= n < 16 -> plain_unit (hex_digit n) = true.
Proof. intros Hn. unfold plain_unit, is_high_surrogate, is_low_surrogate, hex_digit. z_cases. Qed.

Lemma unicode_escape_plain (c : Z) : Forall (fun u => plain_unit u = true) (unicode_escape c).
Proof. repeat constructor; apply hex_digit_plain, Z.mod_pos_bound; lia. Qed.

Lemma escape_unit_plain (c : Z) : Forall (fun u => plain_unit u = true) (escape_unit c).
Proof.
  unfold escape_unit.
  repeat match goal with
  | |- context [if ?a =? ?b then _ else _] => destruct (Z.eqb_spec a b); [by repeat constructor |]
  end.
  destruct ((c <? 32) || is_high_surrogate c || is_low_surrogate c) eqn:E;
    [apply unicode_escape_plain |].
  apply orb_false_iff in E as [[E1 E2]%orb_false_iff E3]. repeat constructor.
  unfold plain_unit. rewrite E2, E3. apply Z.ltb_ge in E1. by apply andb_true_intro; split;
    [apply andb_true_intro; split; [apply Z.leb_le |] |].
Qed.

Lemma plain_unit_ge_32 (u : Z) : plain_unit u = true -> 32 <= u.
Proof. unfold plain_unit. intros [[H _]%andb_prop _]%andb_prop. by apply Z.leb_le. Qed.

Lemma Forall_plain_ge_32 (a : jsstr) :
  Forall (fun u => plain_unit u = true) a -> Forall (fun u => 32 <= u) a.
Proof. induction 1; constructor; [by apply plain_unit_ge_32 | done]. Qed.

#[export] Hint Resolve unicode_escape_plain escape_unit_plain Forall_plain_ge_32 : chatbot.

(** C24: the quoted string is well-formed UTF-16 (a supplementary
    character stays a pair, a lone surrogate is escaped) and holds no raw
    control character, for every input string. *)
Theorem quote_json_string_well_formed (s : jsstr) :
  well_formed_utf16 (quote_json_string s) = true /\
  Forall (fun u => 32 <= u) (quote_json_string s).
Proof.
  unfold quote_json_string.
  assert (Hq : well_formed_utf16 (quote_units s) = true /\
               Forall (fun u => 32 <= u) (quote_units s)).
  { induction s as [|c Eh|c d s Eh El IH|c d s Eh El IH|c s Eh IH] using quote_units_ind;
      [done | ..]; rewrite quote_units_equation, Eh; rewrite ?El; cbv iota beta.
    - split; [apply well_formed_utf16_plain, unicode_escape_plain |].
      apply Forall_plain_ge_32, unicode_escape_plain.
    - apply high_surrogate_bounds in Eh as Eh'. apply low_surrogate_bounds in El as El'.
      destruct IH as [IH1 IH2]. split; [simpl; by rewrite Eh, El, IH1 |].
      repeat constructor; [lia | lia | done].
    - destruct IH as [IH1 IH2].
      split; [apply well_formed_utf16_app; [apply well_formed_utf16_plain, unicode_escape_plain | done] |].
      apply Forall_app; split; [| done].
      apply Forall_plain_ge_32, unicode_escape_plain.
    - destruct IH as [IH1 IH2].
      split; [apply well_formed_utf16_app; [apply well_formed_utf16_plain, escape_unit_plain | done] |].
      apply Forall_app; split; [| done].
      apply Forall_plain_ge_32, escape_unit_plain. }
  destruct Hq as [Hq1 Hq2]. split.
  - apply (well_formed_utf16_app [u_quote]); [done |].
    apply well_formed_utf16_app; [done | by apply well_formed_utf16_plain; repeat constructor].
  - apply Forall_app; split; [repeat constructor; unfold u_quote; lia |].
    apply Forall_app; split; [done | repeat constructor; unfold u_quote; lia].
Qed.

Lemma quote_units_roundtrip_witness :
  unquote_units (quote_units demo_question ++ u_quote :: [125]) = Some (demo_question, [125]).
Proof. apply quote_units_roundtrip. unfold code_units, code_unit. vm_compute. repeat constructor; discriminate. Defined.

Lemma stringify_query_roundtrip_witness : parse_query_body (stringify_query demo_question) = Some demo_question.
Proof. apply stringify_query_roundtrip. unfold code_units, code_unit. vm_compute. repeat constructor; discriminate. Defined.
