(* ===== verification/Query.v ===== *)
(** * The Query Controller: [sendQuery] (Chatbot.jsx, lines 33-66)

    [sendQuery] is an [async] function: its body runs synchronously up to
    the first [await] (the [fetch] of line 42), is resumed when the fetch
    promise settles, runs up to the second [await] ([response.json()],
    line 54) and is resumed once more when that promise settles.  Each run
    between two suspension points is a [Seg] computation (Effects.v); the
    [try/catch/finally] of lines 40-65 spans both [await]s, so a segment that
    suspends inside the [try] leaves it open ([in_try]) and a segment that
    completes or throws runs [catch] and [finally].

    [sendQuery_start], [sendQuery_after_fetch] and [sendQuery_after_json] are
    the three segments; [run_sendQuery] chains them for given settlements
    of the two promises.  The theorems give the final component state on
    every branch (success, falsy fields, HTTP error, network error, JSON
    error, [null] body), and show that every invocation with a non-blank
    question returns after its two resumptions with [isLoading] false. *)

From S2P Require Import Prelude JsString JsValue Effects Json.

(** ** The request *)

Definition API_URL : jsstr := ‹"http://127.0.0.1:8000/query"›.

Record Request := mkRequest {
  req_url : jsstr;
  req_method : jsstr;
  req_headers : list (jsstr * jsstr);
  req_body : jsstr
}.

(** [fetch(API_URL, { method: 'POST', headers: {...}, body: JSON.stringify({ query }) })] *)
Definition fetch_request (q : jsstr) : Request :=
  mkRequest API_URL ‹"POST"› [(‹"Content-Type"›, ‹"application/json"›)] (stringify_query q).

(** A fetch [Response]: [response.ok] is true exactly for the statuses
    200-299 (Fetch standard, "ok status"). *)
Record Response := mkResponse { status : Z }.

Definition response_ok (r : Response) : bool := (200 <=? status r) && (status r <=? 299).

(** How an awaited promise settles. *)
Inductive settled (A : Type) :=
| Fulfilled (a : A)
| Rejected (e : JsError).
Arguments Fulfilled {A} a.
Arguments Rejected {A} e.

(** [await p]: the fulfilment value, or the rejection reason thrown. *)
Definition await_value {A} (r : settled A) : Seg A :=
  match r with
  | Fulfilled a => seg_ret a
  | Rejected e => seg_throw e
  end.

(** Where an invocation is suspended, and how a segment ends. *)
Inductive Suspension :=
| AwaitFetch (req : Request)     (** line 42 *)
| AwaitJson.                     (** line 54 *)

Inductive Outcome :=
| Suspended (s : Suspension)
| Returned.

(** ** The handler *)

Definition error_prefix : jsstr :=
  ‹"Error: Could not connect to RAG server or internal error. ("›.

Definition fallback_answer : jsval := JString ‹"Could not find an answer."›.

Definition http_error : JsError := new_Error ‹"Server error or unauthorized access."›.

(** [catch (error) { console.error(...); setAnswer(`Error: ... (${error.message})`); }] *)
Definition catch_block (e : JsError) : Seg unit :=
  console_error ‹"RAG Query Failed:"› e ;;
  set_state (SetAnswer (JString (error_prefix ++ err_message e ++ ‹")"›))).

(** [finally { setIsLoading(false); }] *)
Definition finally_block : Seg unit := set_state (SetIsLoading false).

(** A segment of the [try] block: suspending keeps the [try] open;
    returning or throwing leaves it through [catch] and [finally]. *)
Definition in_try (body : Seg Outcome) : Seg Outcome :=
  match body with
  | (e, Normal (Suspended s)) => (e, Normal (Suspended s))
  | _ => try_catch_finally body (fun e => catch_block e ;; seg_ret Returned) finally_block
  end.

(** Lines 34-42, up to the first [await]; [q] is the [query] of the render
    whose button was clicked. *)
Definition sendQuery_start (q : jsstr) : Seg Outcome :=
  if negb (to_boolean (JString (js_trim q))) then seg_ret Returned
  else
    set_state (SetIsLoading true) ;;
    set_state (SetAnswer (JString [])) ;;
    set_state (SetSources (JArray [])) ;;
    in_try (seg_ret (Suspended (AwaitFetch (fetch_request q)))).

(** Lines 42-54: the fetch promise has settled. *)
Definition sendQuery_after_fetch (r : settled Response) : Seg Outcome :=
  in_try (
    response <- await_value r ;;
    if negb (response_ok response) then seg_throw http_error
    else seg_ret (Suspended AwaitJson)).

Section AfterJson.
Context `{EngineMessages}.

(** Lines 54-58 and the end of the [try]: the JSON promise has settled. *)
Definition sendQuery_after_json (r : settled jsval) : Seg Outcome :=
  in_try (
    data <- await_value r ;;
    final_answer <- seg_of (get_named data ‹"final_answer"›) ;;
    set_state (SetAnswer (js_or final_answer fallback_answer)) ;;
    srcs <- seg_of (get_named data ‹"sources"›) ;;
    set_state (SetSources (js_or srcs (JArray []))) ;;
    seg_ret Returned).

(** Resumption of a suspended invocation by the settlement it awaits. *)
Inductive Resumption :=
| ResumeFetch (r : settled Response)
| ResumeJson (r : settled jsval).

Definition resume (s : Suspension) (x : Resumption) : option (Seg Outcome) :=
  match s, x with
  | AwaitFetch _, ResumeFetch r => Some (sendQuery_after_fetch r)
  | AwaitJson, ResumeJson r => Some (sendQuery_after_json r)
  | _, _ => None
  end.

(** Run a segment, then, if it suspended, the continuation. *)
Definition then_resume (m : Seg Outcome) (k : Suspension -> Seg Outcome) : Seg Outcome :=
  match m with
  | (e, Normal (Suspended s)) => let '(e2, r) := k s in (eff_app e e2, r)
  | _ => m
  end.

(** One whole invocation, given how its two promises settle. *)
Definition run_sendQuery (q : jsstr) (fr : settled Response) (jr : settled jsval)
    : Seg Outcome :=
  then_resume (sendQuery_start q) (fun _ =>
    then_resume (sendQuery_after_fetch fr) (fun _ => sendQuery_after_json jr)).

(** The component state after the invocation, from state [ui]. *)
Definition final_ui (ui : UI) (q : jsstr) (fr : settled Response) (jr : settled jsval) : UI :=
  apply_updates ui (eff_updates (fst (run_sendQuery q fr jr))).
End AfterJson.

(** What [catch] and [finally] leave behind for an error [e]. *)
Definition failure_seg (e : JsError) : Seg Outcome :=
  (mkEff [SetAnswer (JString (error_prefix ++ err_message e ++ ‹")"›)); SetIsLoading false]
         [mkLog ‹"RAG Query Failed:"› e], Normal Returned).

(** The state [catch] and [finally] leave: the error text as answer, the
    sources cleared at the start, loading off. *)
Definition failure_ui (ui : UI) (e : JsError) : UI :=
  mkUI (query ui) (JString (error_prefix ++ err_message e ++ ‹")"›)) (JArray []) false.

Definition failure_log (e : JsError) : list LogLine := [mkLog ‹"RAG Query Failed:"› e].

Definition demo_ui : UI := mkUI ‹"What is ROS 2?"› initial_answer (JArray []) false.

Definition demo_body : jsval :=
  JObject [(‹"final_answer"›, JString ‹"42"›); (‹"sources"›, JArray [JString ‹"a"›; JString ‹"b"›])].

Definition demo_network_error : JsError := mkError ‹"TypeError"› ‹"Failed to fetch"›.

Definition demo_syntax_error : JsError :=
  mkError ‹"SyntaxError"› ‹"Unexpected token '<', not valid JSON"›.

(** ** Segment equations *)

Lemma in_try_throw (e : JsError) : in_try (seg_throw e) = failure_seg e.
Proof. reflexivity. Qed.

Lemma sendQuery_start_blank (q : jsstr) :
  js_trim q = [] -> sendQuery_start q = seg_ret Returned.
Proof. intros H. unfold sendQuery_start. by rewrite H. Qed.

Lemma sendQuery_start_nonblank (q : jsstr) :
  js_trim q <> [] ->
  sendQuery_start q =
    (mkEff [SetIsLoading true; SetAnswer (JString []); SetSources (JArray [])] [],
     Normal (Suspended (AwaitFetch (fetch_request q)))).
Proof.
  intros H. unfold sendQuery_start. simpl.
  by rewrite bool_decide_eq_false_2.
Qed.

Lemma after_fetch_ok (r : Response) :
  response_ok r = true ->
  sendQuery_after_fetch (Fulfilled r) = (eff_none, Normal (Suspended AwaitJson)).
Proof. intros H. unfold sendQuery_after_fetch. simpl. by rewrite H. Qed.

Lemma after_fetch_not_ok (r : Response) :
  response_ok r = false -> sendQuery_after_fetch (Fulfilled r) = failure_seg http_error.
Proof. intros H. unfold sendQuery_after_fetch. simpl. by rewrite H. Qed.

Lemma after_fetch_rejected (e : JsError) :
  sendQuery_after_fetch (Rejected e) = failure_seg e.
Proof. reflexivity. Qed.

Section AfterJsonLemmas.
Context `{EngineMessages}.

Lemma after_json_rejected (e : JsError) :
  sendQuery_after_json (Rejected e) = failure_seg e.
Proof. reflexivity. Qed.

Lemma after_json_value (data fa src : jsval) :
  get_named data ‹"final_answer"› = Normal fa ->
  get_named data ‹"sources"› = Normal src ->
  sendQuery_after_json (Fulfilled data) =
    (mkEff [SetAnswer (js_or fa fallback_answer); SetSources (js_or src (JArray []));
            SetIsLoading false] [], Normal Returned).
Proof.
  intros Hfa Hsrc. unfold sendQuery_after_json. simpl. rewrite Hfa. simpl.
  by rewrite Hsrc.
Qed.

Lemma after_json_throw (data : jsval) (e : JsError) :
  get_named data ‹"final_answer"› = Throw e ->
  sendQuery_after_json (Fulfilled data) = failure_seg e.
Proof. intros He. unfold sendQuery_after_json. simpl. by rewrite He. Qed.
End AfterJsonLemmas.

Lemma get_named_nonnullish `{EngineMessages} (v : jsval) (key : jsstr) :
  v <> JNull -> v <> JUndefined -> exists x, get_named v key = Normal x.
Proof. destruct v; intros; try done; eauto. Qed.

#[export] Hint Rewrite sendQuery_start_blank sendQuery_start_nonblank after_fetch_ok
  after_fetch_not_ok after_fetch_rejected @after_json_rejected
  @after_json_value @after_json_throw using done : chatbot_rw.

(** ** The invocation's result on every branch *)

Section Results.
Context `{EngineMessages}.

(** Unfold one invocation into its segments. *)
Ltac run_segments :=
  unfold final_ui, run_sendQuery;
  repeat first [ rewrite sendQuery_start_nonblank by done
               | rewrite after_fetch_ok by done
               | rewrite after_fetch_not_ok by done
               | rewrite after_fetch_rejected
               | rewrite after_json_rejected ].

(** C11: a blank question (empty after [trim]) changes nothing:
    no setter is called, nothing is logged, no request is sent. *)
Theorem sendQuery_blank_noop (q : jsstr) :
  Forall (fun c => ws c) q -> sendQuery_start q = (eff_none, Normal Returned).
Proof. intros Hq. apply sendQuery_start_blank, js_trim_nil_iff, Hq. Qed.

(** C12: a non-blank question sets [isLoading], clears [answer]
    and [sources], and sends exactly one POST of the untrimmed question
    to the fixed endpoint. *)
Theorem sendQuery_starts_request (ui : UI) (q : jsstr) :
  js_trim q <> [] ->
  apply_updates ui (eff_updates (fst (sendQuery_start q))) =
    mkUI (query ui) (JString []) (JArray []) true /\
  snd (sendQuery_start q) =
    Normal (Suspended (AwaitFetch (mkRequest ‹"http://127.0.0.1:8000/query"› ‹"POST"›
              [(‹"Content-Type"›, ‹"application/json"›)] (stringify_query q)))).
Proof. intros Hq. by rewrite sendQuery_start_nonblank. Qed.

(** C6: on a 2xx response whose body is a value with fields
    [final_answer] and [sources], the answer is [final_answer || 'Could
    not find an answer.'], the sources [sources || []], loading is off
    and nothing is logged. *)
Theorem sendQuery_success (ui : UI) (q : jsstr) (resp : Response) (data fa src : jsval) :
  js_trim q <> [] -> response_ok resp = true ->
  get_named data ‹"final_answer"› = Normal fa ->
  get_named data ‹"sources"› = Normal src ->
  final_ui ui q (Fulfilled resp) (Fulfilled data) =
    mkUI (query ui) (js_or fa fallback_answer) (js_or src (JArray [])) false /\
  eff_log (fst (run_sendQuery q (Fulfilled resp) (Fulfilled data))) = [].
Proof.
  intros Hq Hok Hfa Hsrc. run_segments.
  by rewrite (after_json_value data fa src).
Qed.

(** C7: a non-2xx status is an error whatever the body: the
    answer is the fixed prefix with [Server error or unauthorized access.]
    and one line is logged. *)
Theorem sendQuery_http_error (ui : UI) (q : jsstr) (resp : Response) (jr : settled jsval) :
  js_trim q <> [] -> response_ok resp = false ->
  final_ui ui q (Fulfilled resp) jr = failure_ui ui http_error /\
  eff_log (fst (run_sendQuery q (Fulfilled resp) jr)) = failure_log http_error.
Proof. intros Hq Hok. by run_segments. Qed.

(** C8: a rejected [fetch] (network failure) shows the rejection's
    message after the prefix. *)
Theorem sendQuery_network_error (ui : UI) (q : jsstr) (e : JsError) (jr : settled jsval) :
  js_trim q <> [] ->
  final_ui ui q (Rejected e) jr = failure_ui ui e /\
  eff_log (fst (run_sendQuery q (Rejected e) jr)) = failure_log e.
Proof. intros Hq. by run_segments. Qed.

(** C9: a rejected [response.json()] (a body that is not JSON) is
    surfaced the same way as a network failure. *)
Theorem sendQuery_json_error (ui : UI) (q : jsstr) (resp : Response) (e : JsError) :
  js_trim q <> [] -> response_ok resp = true ->
  final_ui ui q (Fulfilled resp) (Rejected e) = failure_ui ui e /\
  eff_log (fst (run_sendQuery q (Fulfilled resp) (Rejected e))) = failure_log e.
Proof. intros Hq Hok. by run_segments. Qed.

(** C10: a JSON body [null] makes [data.final_answer] throw a
    TypeError, which the [catch] shows with the engine's message. *)
Theorem sendQuery_null_body (ui : UI) (q : jsstr) (resp : Response) :
  js_trim q <> [] -> response_ok resp = true ->
  final_ui ui q (Fulfilled resp) (Fulfilled JNull) =
    failure_ui ui (mkError ‹"TypeError"› (msg_read_nullish JNull ‹"final_answer"›)).
Proof. intros Hq Hok. run_segments. by rewrite (after_json_throw JNull (mkError ‹"TypeError"› (msg_read_nullish JNull ‹"final_answer"›))). Qed.
End Results.

(** ** [finally] always runs once the invocation leaves the [try] *)

Lemma apply_updates_last_loading (ui : UI) (us : list Update) (b : bool) :
  isLoading (apply_updates ui (us ++ [SetIsLoading b])) = b.
Proof. by rewrite apply_updates_app. Qed.

(** A [try] segment either stays suspended or returns with
    [setIsLoading(false)] as its last update: [catch] and [finally] cannot
    throw. *)
Lemma in_try_cases (body : Seg Outcome) :
  (exists s, snd body = Normal (Suspended s) /\ in_try body = body) \/
  (exists us log, in_try body = (mkEff (us ++ [SetIsLoading false]) log, Normal Returned)).
Proof.
  destruct body as [[us log] [[s|]|x]].
  - left. by exists s.
  - right. exists us, log. simpl. unfold eff_app; simpl. by rewrite ?app_nil_r.
  - right. exists (us ++ [SetAnswer (JString (error_prefix ++ err_message x ++ ‹")"›))]),
      (log ++ [mkLog ‹"RAG Query Failed:"› x]).
    simpl. unfold eff_app; simpl. by rewrite <- ?app_assoc, ?app_nil_r.
Qed.

Lemma after_json_returns `{EngineMessages} (r : settled jsval) :
  exists us log, sendQuery_after_json r =
    (mkEff (us ++ [SetIsLoading false]) log, Normal Returned).
Proof.
  unfold sendQuery_after_json.
  match goal with |- context [in_try ?b] => destruct (in_try_cases b) as [[s [Hs _]]|]; [| done] end.
  exfalso. destruct r as [data|e]; simpl in Hs; [| done].
  destruct (get_named data _); simpl in Hs; [| done].
  destruct (get_named data _); simpl in Hs; done.
Qed.

Lemma after_fetch_cases (r : settled Response) :
  sendQuery_after_fetch r = (eff_none, Normal (Suspended AwaitJson)) \/
  (exists us log, sendQuery_after_fetch r =
     (mkEff (us ++ [SetIsLoading false]) log, Normal Returned)).
Proof.
  destruct r as [resp|e]; [destruct (response_ok resp) eqn:Hok |].
  - left. by apply after_fetch_ok.
  - right. rewrite after_fetch_not_ok by done. by eexists [_], _.
  - right. rewrite after_fetch_rejected. by eexists [_], _.
Qed.

(** C3: every invocation returns after at most its two
    resumptions, whatever the settlements; with a non-blank question the
    loading flag is false at the end on every path (success, HTTP error,
    network error, parse error), with a blank one nothing changed. *)
Theorem sendQuery_always_settles `{EngineMessages} (ui : UI) (q : jsstr)
    (fr : settled Response) (jr : settled jsval) :
  snd (run_sendQuery q fr jr) = Normal Returned /\
  (js_trim q <> [] -> isLoading (final_ui ui q fr jr) = false) /\
  (js_trim q = [] -> final_ui ui q fr jr = ui).
Proof.
  unfold final_ui, run_sendQuery. destruct (decide (js_trim q = [])) as [Hb|Hb].
  - rewrite sendQuery_start_blank by done. done.
  - rewrite sendQuery_start_nonblank by done.
    destruct (after_fetch_cases fr) as [Hf|[us [log Hf]]]; rewrite Hf.
    + destruct (after_json_returns jr) as [us [log Hj]]. rewrite Hj.
      cbn [fst snd then_resume]. unfold eff_app. cbn [eff_updates].
      split; [done |]. split; [| done]. intros _.
      rewrite !app_assoc. apply apply_updates_last_loading.
    + cbn [fst snd then_resume]. unfold eff_app. cbn [eff_updates].
      split; [done |]. split; [| done]. intros _.
      rewrite !app_assoc. apply apply_updates_last_loading.
Qed.

(** C13: the fallback answer replaces every falsy [final_answer]
    ([""], [0], [false], [null], absent), not only an absent one. *)
Theorem sendQuery_falsy_answer_fallback `{EngineMessages} (ui : UI) (q : jsstr)
    (resp : Response) (data fa src : jsval) :
  js_trim q <> [] -> response_ok resp = true ->
  get_named data ‹"final_answer"› = Normal fa ->
  get_named data ‹"sources"› = Normal src ->
  to_boolean fa = false ->
  answer (final_ui ui q (Fulfilled resp) (Fulfilled data)) = fallback_answer.
Proof.
  intros Hq Hok Hfa Hsrc Hf.
  destruct (sendQuery_success ui q resp data fa src) as [-> _]; try done.
  simpl. unfold js_or. by rewrite Hf.
Qed.

(** A resumed segment either waits for the JSON body without touching the
    state, or ends the invocation with [setIsLoading(false)] last. *)
Lemma resume_cases `{EngineMessages} (s : Suspension) (x : Resumption) (seg : Seg Outcome) :
  resume s x = Some seg ->
  seg = (eff_none, Normal (Suspended AwaitJson)) \/
  (exists us log, seg = (mkEff (us ++ [SetIsLoading false]) log, Normal Returned)).
Proof.
  destruct s, x as [r|r]; simpl; intros [= <-].
  - apply after_fetch_cases.
  - right. apply after_json_returns.
Qed.

(** ** Witnesses at the inputs of the specification's examples *)

Lemma demo_query_nonblank : js_trim (query demo_ui) <> [].
Proof. intros Hc. vm_compute in Hc. discriminate. Qed.

Lemma sendQuery_blank_noop_witness : sendQuery_start [32; 9; 10] = (eff_none, Normal Returned).
Proof. apply sendQuery_blank_noop. repeat constructor. Defined.

Lemma sendQuery_starts_request_witness :
  apply_updates demo_ui (eff_updates (fst (sendQuery_start (query demo_ui)))) =
    mkUI (query demo_ui) (JString []) (JArray []) true /\
  snd (sendQuery_start (query demo_ui)) =
    Normal (Suspended (AwaitFetch (mkRequest ‹"http://127.0.0.1:8000/query"› ‹"POST"›
              [(‹"Content-Type"›, ‹"application/json"›)] (stringify_query (query demo_ui))))).
Proof. apply sendQuery_starts_request, demo_query_nonblank. Defined.

Lemma sendQuery_success_witness :
  final_ui demo_ui (query demo_ui) (Fulfilled (mkResponse 200)) (Fulfilled demo_body) =
    mkUI (query demo_ui) (JString ‹"42"›) (JArray [JString ‹"a"›; JString ‹"b"›]) false /\
  eff_log (fst (run_sendQuery (query demo_ui) (Fulfilled (mkResponse 200)) (Fulfilled demo_body))) = [].
Proof.
  apply (sendQuery_success demo_ui (query demo_ui) (mkResponse 200) demo_body
           (JString ‹"42"›) (JArray [JString ‹"a"›; JString ‹"b"›]));
    [apply demo_query_nonblank | reflexivity ..].
Defined.

Lemma sendQuery_http_error_witness :
  final_ui demo_ui (query demo_ui) (Fulfilled (mkResponse 500)) (Fulfilled demo_body) =
    failure_ui demo_ui http_error /\
  eff_log (fst (run_sendQuery (query demo_ui) (Fulfilled (mkResponse 500)) (Fulfilled demo_body))) =
    failure_log http_error.
Proof. apply sendQuery_http_error; [apply demo_query_nonblank | reflexivity]. Defined.

Lemma sendQuery_network_error_witness :
  final_ui demo_ui (query demo_ui) (Rejected demo_network_error) (Fulfilled demo_body) =
    failure_ui demo_ui demo_network_error /\
  eff_log (fst (run_sendQuery (query demo_ui) (Rejected demo_network_error) (Fulfilled demo_body))) =
    failure_log demo_network_error.
Proof. apply sendQuery_network_error, demo_query_nonblank. Defined.

Lemma sendQuery_json_error_witness :
  final_ui demo_ui (query demo_ui) (Fulfilled (mkResponse 200)) (Rejected demo_syntax_error) =
    failure_ui demo_ui demo_syntax_error /\
  eff_log (fst (run_sendQuery (query demo_ui) (Fulfilled (mkResponse 200)) (Rejected demo_syntax_error))) =
    failure_log demo_syntax_error.
Proof. apply sendQuery_json_error; [apply demo_query_nonblank | reflexivity]. Defined.

Lemma sendQuery_null_body_witness :
  final_ui demo_ui (query demo_ui) (Fulfilled (mkResponse 204)) (Fulfilled JNull) =
    failure_ui demo_ui (mkError ‹"TypeError"› (msg_read_nullish JNull ‹"final_answer"›)).
Proof. apply sendQuery_null_body; [apply demo_query_nonblank | reflexivity]. Defined.

Lemma sendQuery_falsy_answer_fallback_witness :
  answer (final_ui demo_ui (query demo_ui) (Fulfilled (mkResponse 200))
            (Fulfilled (JObject [(‹"final_answer"›, JString [])]))) = fallback_answer.
Proof.
  apply (sendQuery_falsy_answer_fallback demo_ui (query demo_ui) (mkResponse 200)
           (JObject [(‹"final_answer"›, JString [])]) (JString []) JUndefined);
    [apply demo_query_nonblank | reflexivity ..].
Defined.
