(* ===== verification/Selection.v ===== *)
(** * The Selection Watcher: [handleSelection] (Chatbot.jsx, lines 18-24)

    On every [mouseup] and [keyup] of the document, [handleSelection] reads
    [window.getSelection()?.toString().trim()] and, when the result is
    truthy, calls [setQuery] with the template
    [Question based on selected text: "<text>"].  The selection is [None]
    when [getSelection()] returns [null] (the optional chain then yields
    [undefined]).  The theorems: a selection with a non-white-space
    character overwrites the question with the template of its trimmed
    text; any other selection changes nothing; and a captured question is
    never blank, so the Query Controller accepts it. *)

From S2P Require Import Prelude JsString JsValue Effects.

(** [`Question based on selected text: "${selectedText}"`] *)
Definition selection_template (t : jsstr) : jsstr :=
  ‹"Question based on selected text: "› ++ [u_quote] ++ t ++ [u_quote].

Definition handleSelection (sel : option jsstr) : Seg unit :=
  match option_map js_trim sel with
  | Some selectedText =>
      if to_boolean (JString selectedText)
      then set_state (SetQuery (selection_template selectedText))
      else seg_ret tt
  | None => seg_ret tt
  end.

(** C19: a selection with a non-white-space character replaces the
    question, whatever it held, by the template around the trimmed
    selection. *)
Theorem handleSelection_captures (ui : UI) (s : jsstr) :
  js_trim s <> [] ->
  handleSelection (Some s) = set_state (SetQuery (selection_template (js_trim s))) /\
  apply_updates ui (eff_updates (fst (handleSelection (Some s)))) =
    mkUI (selection_template (js_trim s)) (answer ui) (sources ui) (isLoading ui).
Proof.
  intros Hs. unfold handleSelection. simpl. rewrite bool_decide_eq_false_2 by done.
  by split.
Qed.

(** C20: no selection API result, or a white-space-only selection,
    changes nothing. *)
Theorem handleSelection_ignores (sel : option jsstr) :
  match sel with None => True | Some s => Forall (fun c => ws c) s end ->
  handleSelection sel = seg_ret tt.
Proof.
  destruct sel as [s|]; [| done]. intros Hs. unfold handleSelection. simpl.
  by rewrite (proj2 (js_trim_nil_iff s) Hs).
Qed.

(** The template starts with [Q] and ends with a quote: it is its own
    trimmed form. *)
Lemma selection_template_edge_clean (t : jsstr) : edge_clean (selection_template t) = true.
Proof.
  unfold edge_clean, selection_template. rewrite !rev_app_distr. reflexivity.
Qed.

(** C21: a captured question is never blank: [query.trim()] returns
    it unchanged, so [sendQuery] sends it. *)
Theorem selection_template_not_blank (t : jsstr) :
  js_trim (selection_template t) = selection_template t /\ js_trim (selection_template t) <> [].
Proof.
  assert (H : js_trim (selection_template t) = selection_template t).
  { rewrite <- (app_nil_l (selection_template t)), <- (app_nil_r (selection_template t)) at 1.
    apply js_trim_unique; [constructor | constructor | apply selection_template_edge_clean]. }
  split; [done |]. rewrite H. unfold selection_template. done.
Qed.

Lemma handleSelection_captures_witness :
  handleSelection (Some ‹"  ROS 2 nodes "›) =
    set_state (SetQuery (selection_template (js_trim ‹"  ROS 2 nodes "›))) /\
  apply_updates initial_ui (eff_updates (fst (handleSelection (Some ‹"  ROS 2 nodes "›)))) =
    mkUI (selection_template (js_trim ‹"  ROS 2 nodes "›)) (answer initial_ui)
         (sources initial_ui) (isLoading initial_ui).
Proof. apply handleSelection_captures. intros Hc. vm_compute in Hc. discriminate. Defined.

Lemma handleSelection_ignores_witness : handleSelection (Some [32; 10; 8232]) = seg_ret tt.
Proof. apply handleSelection_ignores. repeat constructor. Defined.
