(* ===== verification/Listeners.v ===== *)
(** * Document listeners and the selection effect (Chatbot.jsx, lines 17-31)

    The [useEffect] of lines 17-31 creates a [handleSelection] closure,
    registers it on [document] for [mouseup] and [keyup], and returns a
    cleanup that removes both.  The document keeps its listeners as an
    ordered list of (type, callback, capture) entries (DOM Standard,
    "event listener list"); [addEventListener] ignores an entry already
    present and [removeEventListener] removes the matching one.  A callback
    is identified by the closure that was registered: the [handleSelection]
    of instance [inst] created by effect run [run], or a listener of the
    host page.  The theorems: the cleanup removes exactly what the effect
    added, each event type gets the closure once, and after the cleanup no
    [mouseup]/[keyup] reaches that closure. *)

From S2P Require Import Prelude.

Inductive Callback :=
| HandleSelection (inst run : nat)
| HostCallback (n : nat).

#[export] Instance Callback_eq_dec : EqDecision Callback.
Proof. unfold EqDecision, Decision. decide equality; apply Nat.eq_dec. Defined.

(** A listener entry; [capture] is [false] for every entry of this code. *)
Record Listener := mkListener { l_type : jsstr; l_callback : Callback }.

#[export] Instance Listener_eq_dec : EqDecision Listener.
Proof.
  intros [t1 c1] [t2 c2].
  destruct (decide (t1 = t2)), (decide (c1 = c2)); subst;
    [left; done | right; congruence ..].
Defined.

Definition addEventListener (ty : jsstr) (cb : Callback) (ls : list Listener) : list Listener :=
  if bool_decide (mkListener ty cb ∈ ls) then ls else ls ++ [mkListener ty cb].

Definition removeEventListener (ty : jsstr) (cb : Callback) (ls : list Listener) : list Listener :=
  filter (fun l => l <> mkListener ty cb) ls.

Definition ev_mouseup : jsstr := ‹"mouseup"›.
Definition ev_keyup : jsstr := ‹"keyup"›.

(** The effect body (lines 25-26) for the closure [HandleSelection inst run]. *)
Definition selection_effect (inst run : nat) (ls : list Listener) : list Listener :=
  addEventListener ev_keyup (HandleSelection inst run)
    (addEventListener ev_mouseup (HandleSelection inst run) ls).

(** The cleanup it returns (lines 27-30). *)
Definition selection_cleanup (inst run : nat) (ls : list Listener) : list Listener :=
  removeEventListener ev_keyup (HandleSelection inst run)
    (removeEventListener ev_mouseup (HandleSelection inst run) ls).

(** The callbacks an event of type [ty] invokes, in registration order. *)
Definition dispatch_targets (ty : jsstr) (ls : list Listener) : list Callback :=
  map l_callback (filter (fun l => l_type l = ty) ls).

(** No entry of [ls] holds callback [cb]. *)
Definition callback_absent (cb : Callback) (ls : list Listener) : Prop :=
  Forall (fun l => l_callback l <> cb) ls.

Definition demo_doc : list Listener := [mkListener ‹"click"› (HostCallback 7); mkListener ev_keyup (HostCallback 8)].

(** ** Lemmas *)

Lemma elem_of_addEventListener (ty : jsstr) (cb : Callback) (ls : list Listener) (l : Listener) :
  l ∈ addEventListener ty cb ls <-> l ∈ ls \/ l = mkListener ty cb.
Proof.
  unfold addEventListener. case_bool_decide as Hin.
  - split; [auto | by intros [? | ->]].
  - by rewrite elem_of_app, list_elem_of_singleton.
Qed.

Lemma elem_of_removeEventListener (ty : jsstr) (cb : Callback) (ls : list Listener) (l : Listener) :
  l ∈ removeEventListener ty cb ls <-> l ∈ ls /\ l <> mkListener ty cb.
Proof. unfold removeEventListener. rewrite list_elem_of_filter. tauto. Qed.

Lemma NoDup_addEventListener (ty : jsstr) (cb : Callback) (ls : list Listener) :
  NoDup ls -> NoDup (addEventListener ty cb ls).
Proof.
  intros H. unfold addEventListener. case_bool_decide; [done |].
  apply list.NoDup_app. split; [done |]. split; [| apply NoDup_singleton].
  intros x Hx ->%list_elem_of_singleton. done.
Qed.

Lemma NoDup_removeEventListener (ty : jsstr) (cb : Callback) (ls : list Listener) :
  NoDup ls -> NoDup (removeEventListener ty cb ls).
Proof. apply list.NoDup_filter. Qed.

(** Removing an entry that was never added changes nothing. *)
Lemma removeEventListener_absent (ty : jsstr) (cb : Callback) (ls : list Listener) :
  callback_absent cb ls -> removeEventListener ty cb ls = ls.
Proof.
  induction 1 as [|l ls Hl _ IH]; [done |]. unfold removeEventListener in *.
  rewrite filter_cons_True; [by rewrite IH | intros ->; done].
Qed.

#[export] Hint Resolve NoDup_addEventListener NoDup_removeEventListener : chatbot.

Lemma removeEventListener_app (ty : jsstr) (cb : Callback) (a b : list Listener) :
  removeEventListener ty cb (a ++ b) = removeEventListener ty cb a ++ removeEventListener ty cb b.
Proof. apply list.filter_app. Qed.

Lemma ev_mouseup_keyup : ev_mouseup <> ev_keyup.
Proof. done. Qed.

Lemma absent_not_elem (ty : jsstr) (cb : Callback) (ls : list Listener) :
  callback_absent cb ls -> mkListener ty cb ∉ ls.
Proof. intros H Hin. eapply Forall_forall in H; [| by apply list_elem_of_In]. done. Qed.

Lemma addEventListener_new (ty : jsstr) (cb : Callback) (ls : list Listener) :
  mkListener ty cb ∉ ls -> addEventListener ty cb ls = ls ++ [mkListener ty cb].
Proof. intros H. unfold addEventListener. by rewrite bool_decide_eq_false_2. Qed.

Lemma addEventListener_present (ty : jsstr) (cb : Callback) (ls : list Listener) :
  mkListener ty cb ∈ ls -> addEventListener ty cb ls = ls.
Proof. intros H. unfold addEventListener. by rewrite bool_decide_eq_true_2. Qed.

Lemma keyup_listener_ne (cb : Callback) : mkListener ev_keyup cb <> mkListener ev_mouseup cb.
Proof. by intros [=]. Qed.

(** C25: on a document where the closure is not registered, the
    cleanup returned by the effect removes exactly what the effect added:
    the host's own listeners are back, in their order. *)
Theorem selection_cleanup_effect (inst run : nat) (ls : list Listener) :
  callback_absent (HandleSelection inst run) ls ->
  selection_cleanup inst run (selection_effect inst run ls) = ls.
Proof.
  intros H. unfold selection_effect, selection_cleanup.
  rewrite (addEventListener_new ev_mouseup) by (by apply absent_not_elem).
  rewrite addEventListener_new by (rewrite elem_of_app, list_elem_of_singleton;
    intros [Hin | Heq]; [by eapply absent_not_elem | by eapply keyup_listener_ne]).
  rewrite !removeEventListener_app, !(removeEventListener_absent _ _ ls) by done.
  unfold removeEventListener. simpl.
  rewrite filter_cons_False, filter_cons_True, filter_nil by
    (try apply keyup_listener_ne; tauto).
  simpl. rewrite filter_cons_False, filter_nil by tauto. by rewrite ?app_nil_r.
Qed.

(** C26: running the effect registers the closure once for each
    event type, also when it is run again on the same document (the DOM
    ignores a duplicate registration). *)
Theorem selection_effect_registers (inst run : nat) (ls : list Listener) :
  NoDup ls ->
  NoDup (selection_effect inst run ls) /\
  mkListener ev_mouseup (HandleSelection inst run) ∈ selection_effect inst run ls /\
  mkListener ev_keyup (HandleSelection inst run) ∈ selection_effect inst run ls /\
  selection_effect inst run (selection_effect inst run ls) = selection_effect inst run ls.
Proof.
  intros Hnd. unfold selection_effect.
  split; [auto with chatbot |].
  split; [by apply elem_of_addEventListener; left; apply elem_of_addEventListener; right |].
  split; [by apply elem_of_addEventListener; right |].
  rewrite (addEventListener_present ev_mouseup)
    by (apply elem_of_addEventListener; left; apply elem_of_addEventListener; by right).
  apply addEventListener_present. apply elem_of_addEventListener. by right.
Qed.

(** C27: after the cleanup, no [mouseup] or [keyup] event reaches the
    closure, provided it was only registered for those two types. *)
Theorem selection_cleanup_silences (inst run : nat) (ls : list Listener) (ty : jsstr) :
  (forall l, l ∈ ls -> l_callback l = HandleSelection inst run ->
     l_type l = ev_mouseup \/ l_type l = ev_keyup) ->
  HandleSelection inst run ∉ dispatch_targets ty (selection_cleanup inst run ls).
Proof.
  intros Hty Hin. unfold dispatch_targets in Hin.
  apply list_elem_of_fmap in Hin as [l [Hcb Hl]].
  apply list_elem_of_filter in Hl as [_ Hl].
  unfold selection_cleanup in Hl.
  apply elem_of_removeEventListener in Hl as [Hl Hk].
  apply elem_of_removeEventListener in Hl as [Hl Hm].
  destruct l as [lt lc]; simpl in *; subst lc.
  destruct (Hty _ Hl eq_refl) as [Ht | Ht]; simpl in Ht; subst lt; done.
Qed.

Lemma elem_of_selection_effect (inst run : nat) (ls : list Listener) (l : Listener) :
  l ∈ selection_effect inst run ls <->
  l ∈ ls \/ l = mkListener ev_mouseup (HandleSelection inst run) \/
  l = mkListener ev_keyup (HandleSelection inst run).
Proof. unfold selection_effect. rewrite !elem_of_addEventListener. tauto. Qed.

Lemma elem_of_selection_cleanup (inst run : nat) (ls : list Listener) (l : Listener) :
  l ∈ selection_cleanup inst run ls <->
  l ∈ ls /\ l <> mkListener ev_mouseup (HandleSelection inst run) /\
  l <> mkListener ev_keyup (HandleSelection inst run).
Proof. unfold selection_cleanup. rewrite !elem_of_removeEventListener. tauto. Qed.

Lemma NoDup_selection_cleanup (inst run : nat) (ls : list Listener) :
  NoDup ls -> NoDup (selection_cleanup inst run ls).
Proof. intros H. unfold selection_cleanup. auto with chatbot. Qed.

#[export] Hint Resolve NoDup_selection_cleanup : chatbot.

Lemma selection_cleanup_effect_witness : selection_cleanup 0 1 (selection_effect 0 1 demo_doc) = demo_doc.
Proof. apply selection_cleanup_effect. repeat constructor; discriminate. Defined.

Lemma selection_effect_registers_witness :
  NoDup (selection_effect 0 1 demo_doc) /\
  mkListener ev_mouseup (HandleSelection 0 1) ∈ selection_effect 0 1 demo_doc /\
  mkListener ev_keyup (HandleSelection 0 1) ∈ selection_effect 0 1 demo_doc /\
  selection_effect 0 1 (selection_effect 0 1 demo_doc) = selection_effect 0 1 demo_doc.
Proof. apply selection_effect_registers. apply (bool_decide_unpack _). vm_compute. reflexivity. Defined.

Lemma selection_cleanup_silences_witness :
  HandleSelection 0 1 ∉ dispatch_targets ev_mouseup (selection_cleanup 0 1 (selection_effect 0 1 demo_doc)).
Proof.
  apply selection_cleanup_silences. intros l Hl Hcb.
  apply elem_of_selection_effect in Hl as [Hl | [-> | ->]]; [| by left | by right].
  exfalso. unfold demo_doc in Hl.
  repeat match goal with H : _ ∈ _ |- _ => inversion H; subst; clear H end; done.
Defined.
