(* ===== verification/Widget.v ===== *)
(** * The whole component: [Chatbot] as a step machine

    This file composes the parts into the component React runs: one
    mounted instance at a time (its state, Effects.v), the document's
    listener list (Listeners.v), the [sendQuery] invocations in flight
    (Query.v), the requests sent and the console.  Every external event is
    one constructor of [Event]: mounting and unmounting, React StrictMode's
    re-run of the effect, a listener added by the host page, typing in the
    textarea ([onChange], line 75), a click on the button ([onClick], line
    79, delivered only while the button is enabled, [disabled={isLoading}]),
    a [mouseup]/[keyup] on the document, and the settlement of one awaited
    promise.  [step] is total and executable; [reachable] is the closure of
    [step] from the unmounted initial world.

    Each setter call belongs to the instance whose closure made it; React
    applies it only while that instance is mounted, and drops it after
    unmount (the fiber is gone).  An in-flight invocation survives unmount
    (nothing aborts the fetch). *)

From S2P Require Import Prelude JsString JsValue Effects Json Query Selection Listeners.

(** An in-flight [sendQuery] invocation: its id, the instance whose click
    started it, and where it is suspended. *)
Record Task := mkTask { task_id : nat; task_inst : nat; task_stage : Suspension }.

Record World := mkWorld {
  mounted : option (nat * nat);  (** instance id and id of its current effect run *)
  ui : UI;                       (** state of the mounted instance *)
  doc : list Listener;           (** [document]'s event listener list *)
  tasks : list Task;             (** invocations in flight *)
  sent : list Request;           (** requests issued, in order *)
  console : list LogLine;        (** lines printed by [console.error] *)
  fresh : nat                    (** next unused id *)
}.

Definition init_world : World := mkWorld None initial_ui [] [] [] [] 0.

Inductive Event :=
| EvMount
| EvUnmount
| EvStrictReplay
| EvHostListen (ty : jsstr) (n : nat)
| EvInput (s : jsstr)
| EvClick
| EvDom (ty : jsstr) (sel : option jsstr)
| EvSettle (tid : nat) (x : Resumption).

(** The effects of a segment run by a closure of instance [inst]. *)
Definition commit (w : World) (inst : nat) (e : Eff) : World :=
  let ui' := match mounted w with
             | Some (i, _) => if decide (i = inst) then apply_updates (ui w) (eff_updates e) else ui w
             | None => ui w
             end in
  mkWorld (mounted w) ui' (doc w) (tasks w) (sent w) (console w ++ eff_log e) (fresh w).

Definition with_tasks (w : World) (ts : list Task) : World :=
  mkWorld (mounted w) (ui w) (doc w) ts (sent w) (console w) (fresh w).

Definition request_of (s : Suspension) : list Request :=
  match s with AwaitFetch req => [req] | AwaitJson => [] end.

(** Mount: a fresh instance with the initial state, then its effect. *)
Definition mount (w : World) : World :=
  match mounted w with
  | None =>
      let i := fresh w in let r := S (fresh w) in
      mkWorld (Some (i, r)) initial_ui (selection_effect i r (doc w)) (tasks w)
              (sent w) (console w) (S (S (fresh w)))
  | Some _ => w
  end.

(** Unmount: the effect's cleanup runs. *)
Definition unmount (w : World) : World :=
  match mounted w with
  | Some (i, r) =>
      mkWorld None (ui w) (selection_cleanup i r (doc w)) (tasks w) (sent w) (console w) (fresh w)
  | None => w
  end.

(** StrictMode in development: React runs the cleanup and then the effect
    again on the same instance, creating a new [handleSelection]. *)
Definition strict_replay (w : World) : World :=
  match mounted w with
  | Some (i, r) =>
      let r' := fresh w in
      mkWorld (Some (i, r')) (ui w) (selection_effect i r' (selection_cleanup i r (doc w)))
              (tasks w) (sent w) (console w) (S (fresh w))
  | None => w
  end.

(** The button's [onClick={sendQuery}]: [query] is the state of the
    rendered instance; the suspended invocation is recorded with its
    request. *)
Definition click (w : World) : World :=
  match mounted w with
  | Some (i, _) =>
      if isLoading (ui w) then w
      else
        let '(e, r) := sendQuery_start (query (ui w)) in
        let w1 := commit w i e in
        match r with
        | Normal (Suspended s) =>
            mkWorld (mounted w1) (ui w1) (doc w1) (tasks w1 ++ [mkTask (fresh w1) i s])
                    (sent w1 ++ request_of s) (console w1) (S (fresh w1))
        | _ => w1
        end
  | None => w
  end.

(** A [mouseup]/[keyup] on the document runs every callback registered for
    its type, in order; the page's own callbacks do not touch this
    component. *)
Definition run_callback (sel : option jsstr) (w : World) (cb : Callback) : World :=
  match cb with
  | HandleSelection i _ => commit w i (fst (handleSelection sel))
  | HostCallback _ => w
  end.

Definition dom_event (w : World) (ty : jsstr) (sel : option jsstr) : World :=
  fold_left (run_callback sel) (dispatch_targets ty (doc w)) w.

Definition find_task (tid : nat) (ts : list Task) : option Task :=
  List.find (fun t => Nat.eqb (task_id t) tid) ts.

Definition set_stage (tid : nat) (s : Suspension) (ts : list Task) : list Task :=
  map (fun t => if Nat.eqb (task_id t) tid then mkTask (task_id t) (task_inst t) s else t) ts.

Definition drop_task (tid : nat) (ts : list Task) : list Task :=
  List.filter (fun t => negb (Nat.eqb (task_id t) tid)) ts.

Section Step.
Context `{EngineMessages}.

(** The awaited promise of invocation [tid] settles. *)
Definition settle (w : World) (tid : nat) (x : Resumption) : World :=
  match find_task tid (tasks w) with
  | Some t =>
      match resume (task_stage t) x with
      | Some (e, r) =>
          let w1 := commit w (task_inst t) e in
          match r with
          | Normal (Suspended s) => with_tasks w1 (set_stage tid s (tasks w1))
          | _ => with_tasks w1 (drop_task tid (tasks w1))
          end
      | None => w
      end
  | None => w
  end.

Definition step (w : World) (ev : Event) : World :=
  match ev with
  | EvMount => mount w
  | EvUnmount => unmount w
  | EvStrictReplay => strict_replay w
  | EvHostListen ty n =>
      mkWorld (mounted w) (ui w) (addEventListener ty (HostCallback n) (doc w))
              (tasks w) (sent w) (console w) (fresh w)
  | EvInput s =>
      match mounted w with
      | Some (i, _) => commit w i (fst (set_state (SetQuery s)))
      | None => w
      end
  | EvClick => click w
  | EvDom ty sel => dom_event w ty sel
  | EvSettle tid x => settle w tid x
  end.

Definition run_events (w : World) (evs : list Event) : World := fold_left step evs w.

Inductive reachable : World -> Prop :=
| reachable_init : reachable init_world
| reachable_step w ev : reachable w -> reachable (step w ev).
End Step.

(** The invocations of instance [i] in flight. *)
Definition tasks_of (i : nat) (ts : list Task) : list Task :=
  List.filter (fun t => Nat.eqb (task_inst t) i) ts.

(** Updates that only write [query]. *)
Definition query_updates (us : list Update) : Prop := Forall (fun u => exists s, u = SetQuery s) us.

(** A world that differs from [w] at most in the [query], the console and
    the requests sent. *)
Definition frame (w w' : World) : Prop :=
  mounted w' = mounted w /\ doc w' = doc w /\ tasks w' = tasks w /\
  fresh w' = fresh w /\ isLoading (ui w') = isLoading (ui w) /\ sent w' = sent w.

Record Inv (w : World) : Prop := {
  (** The mounted instance is loading exactly when one of its invocations
      is in flight, and it never has two. *)
  inv_busy : forall i r, mounted w = Some (i, r) ->
    length (tasks_of i (tasks w)) = (if isLoading (ui w) then 1 else 0)%nat;
  inv_task_fresh : forall t, In t (tasks w) -> (task_inst t < fresh w /\ task_id t < fresh w)%nat;
  inv_task_ids : NoDup (map task_id (tasks w));
  inv_mounted_fresh : forall i r, mounted w = Some (i, r) -> (i < fresh w /\ r < fresh w)%nat;
  inv_doc_nodup : NoDup (doc w);
  (** Every [handleSelection] on the document is the mounted one's, for
      [mouseup] or [keyup]... *)
  inv_doc_owner : forall l i r, l ∈ doc w -> l_callback l = HandleSelection i r ->
    mounted w = Some (i, r) /\ (l_type l = ev_mouseup \/ l_type l = ev_keyup);
  (** ... and the mounted one is registered for both. *)
  inv_doc_registered : forall i r, mounted w = Some (i, r) ->
    mkListener ev_mouseup (HandleSelection i r) ∈ doc w /\
    mkListener ev_keyup (HandleSelection i r) ∈ doc w
}.

(** ** Refinement of the specification's controller state machine

    The specification (section 4.2) describes the Query Controller of one
    mounted widget as [Idle -> Busy -> Idle]: a trigger with a non-blank
    question starts exactly one request and makes it [Busy]; the
    settlement of that request makes it [Idle] again; a blank trigger is
    ignored.  Unmounting discards the controller. *)

Inductive Phase := Idle | Busy.

Inductive CtrlLabel :=
| Trigger (q : jsstr)
| Settle
| Teardown
| Silent.

Inductive ctrl_step : Phase -> CtrlLabel -> Phase -> Prop :=
| cs_trigger q : js_trim q <> [] -> ctrl_step Idle (Trigger q) Busy
| cs_ignore q : js_trim q = [] -> ctrl_step Idle (Trigger q) Idle
| cs_settle : ctrl_step Busy Settle Idle
| cs_teardown p : ctrl_step p Teardown Idle
| cs_silent p : ctrl_step p Silent p.

(** The requests a controller step sends. *)
Definition ctrl_requests (l : CtrlLabel) : list Request :=
  match l with
  | Trigger q => if bool_decide (js_trim q = []) then [] else [fetch_request q]
  | _ => []
  end.

(** The phase of the mounted controller; no controller is [Idle]. *)
Definition phase (w : World) : Phase :=
  match mounted w with
  | Some _ => if isLoading (ui w) then Busy else Idle
  | None => Idle
  end.

Section Labels.
Context `{EngineMessages}.

(** How the specification sees a concrete event. *)
Definition label (w : World) (ev : Event) : CtrlLabel :=
  match ev with
  | EvClick =>
      match mounted w with
      | Some _ => if isLoading (ui w) then Silent else Trigger (query (ui w))
      | None => Silent
      end
  | EvUnmount => Teardown
  | EvSettle tid x =>
      match find_task tid (tasks w), mounted w with
      | Some t, Some (i, _) =>
          if Nat.eqb (task_inst t) i then
            match resume (task_stage t) x with
            | Some (_, Normal Returned) => Settle
            | _ => Silent
            end
          else Silent
      | _, _ => Silent
      end
  | _ => Silent
  end.
End Labels.

(** Mount, type a question, click. *)
Definition demo_events : list Event := [EvMount; EvInput ‹"What is ROS 2?"›; EvClick].

Definition demo_world : World := run_events init_world demo_events.

(** ** Lemmas on the parts of a world *)

Lemma tasks_of_app (i : nat) (ts us : list Task) :
  tasks_of i (ts ++ us) = tasks_of i ts ++ tasks_of i us.
Proof. apply filter_app. Qed.

Lemma tasks_of_fresh (i : nat) (ts : list Task) :
  (forall t, In t ts -> (task_inst t < i)%nat) -> tasks_of i ts = [].
Proof.
  induction ts as [|t ts IH]; intros Hlt; [done |]. simpl.
  destruct (Nat.eqb_spec (task_inst t) i) as [E|E].
  - specialize (Hlt t (or_introl eq_refl)). lia.
  - apply IH. intros; apply Hlt; by right.
Qed.

Lemma tasks_of_set_stage (i tid : nat) (s : Suspension) (ts : list Task) :
  length (tasks_of i (set_stage tid s ts)) = length (tasks_of i ts).
Proof.
  induction ts as [|t ts IH]; [done |]. simpl.
  destruct (Nat.eqb (task_id t) tid); simpl; destruct (Nat.eqb (task_inst t) i); simpl; lia.
Qed.

Lemma map_task_id_set_stage (tid : nat) (s : Suspension) (ts : list Task) :
  map task_id (set_stage tid s ts) = map task_id ts.
Proof. induction ts as [|t ts IH]; [done |]. simpl. by destruct (Nat.eqb (task_id t) tid); f_equal. Qed.

Lemma In_set_stage (tid : nat) (s : Suspension) (ts : list Task) (t : Task) :
  In t (set_stage tid s ts) -> exists t0, In t0 ts /\ task_id t = task_id t0 /\ task_inst t = task_inst t0.
Proof.
  unfold set_stage. intros (t0 & <- & Hin)%in_map_iff. exists t0. split; [done |].
  by destruct (Nat.eqb (task_id t0) tid).
Qed.

(** Dropping the invocation [t] (ids are unique) removes exactly it. *)
Lemma tasks_of_drop (i : nat) (t : Task) (ts : list Task) :
  In t ts -> NoDup (map task_id ts) ->
  length (tasks_of i (drop_task (task_id t) ts)) =
    (length (tasks_of i ts) - (if Nat.eqb (task_inst t) i then 1 else 0))%nat.
Proof.
  unfold tasks_of, drop_task.
  induction ts as [|u ts IH]; [done |]. intros Hin Hnd. cbn [map] in Hnd.
  apply list.NoDup_cons in Hnd as [Hu Hnd].
  destruct Hin as [-> | Hin].
  - cbn [List.filter]. rewrite Nat.eqb_refl. cbn [negb].
    rewrite (forallb_filter_id (fun x => negb (Nat.eqb (task_id x) (task_id t))) ts).
    2:{ apply forallb_forall. intros x Hx. apply negb_true_iff, Nat.eqb_neq. intros Heq.
        apply Hu. rewrite <- Heq. by apply list_elem_of_In, in_map. }
    destruct (Nat.eqb (task_inst t) i); cbn [List.filter length]; lia.
  - assert (Hne : Nat.eqb (task_id u) (task_id t) = false).
    { apply Nat.eqb_neq. intros Heq. apply Hu. rewrite Heq. by apply list_elem_of_In, in_map. }
    cbn [List.filter]. rewrite Hne. cbn [negb List.filter].
    specialize (IH Hin Hnd).
    destruct (Nat.eqb (task_inst u) i) eqn:Eu; cbn [length]; [| exact IH].
    rewrite IH. destruct (Nat.eqb (task_inst t) i) eqn:Et; [| lia].
    assert (Ht : In t (List.filter (fun t0 => Nat.eqb (task_inst t0) i) ts))
      by (apply filter_In; auto).
    destruct (List.filter (fun t0 => Nat.eqb (task_inst t0) i) ts); [destruct Ht | cbn [length]; lia].
Qed.

Lemma commit_self (w : World) (i r : nat) (e : Eff) :
  mounted w = Some (i, r) -> ui (commit w i e) = apply_updates (ui w) (eff_updates e).
Proof. intros Hm. unfold commit. rewrite Hm. simpl. by rewrite decide_True. Qed.

Lemma commit_other (w : World) (inst : nat) (e : Eff) :
  (forall r, mounted w <> Some (inst, r)) -> ui (commit w inst e) = ui w.
Proof.
  intros Hm. unfold commit. simpl. destruct (mounted w) as [[i r]|]; [| done].
  rewrite decide_False; [done |]. intros ->. by apply (Hm r).
Qed.

Lemma apply_query_updates_loading (ui0 : UI) (us : list Update) :
  query_updates us -> isLoading (apply_updates ui0 us) = isLoading ui0.
Proof.
  intros Hus. revert ui0. induction Hus as [|u us [s ->] _ IH]; intros ui0; [done |].
  simpl. by rewrite IH.
Qed.

Lemma handleSelection_query_updates (sel : option jsstr) :
  query_updates (eff_updates (fst (handleSelection sel))).
Proof.
  unfold handleSelection. destruct sel as [s|]; simpl; [| constructor].
  destruct (bool_decide (js_trim s = [])); simpl; repeat constructor; eauto.
Qed.

Lemma commit_query_frame (w : World) (inst : nat) (e : Eff) :
  query_updates (eff_updates e) -> frame w (commit w inst e).
Proof.
  intros Hq. unfold frame, commit. simpl. repeat split.
  destruct (mounted w) as [[i r]|]; [| done].
  destruct (decide (i = inst)); [by apply apply_query_updates_loading | done].
Qed.

Lemma frame_trans (w1 w2 w3 : World) : frame w1 w2 -> frame w2 w3 -> frame w1 w3.
Proof. unfold frame. intros (?&?&?&?&?&?) (?&?&?&?&?&?). repeat split; congruence. Qed.

Lemma dom_event_frame (w : World) (ty : jsstr) (sel : option jsstr) : frame w (dom_event w ty sel).
Proof.
  unfold dom_event. generalize (dispatch_targets ty (doc w)) as cbs.
  intros cbs. revert w. induction cbs as [|cb cbs IH]; intros w; simpl; [by repeat split |].
  eapply frame_trans; [| apply IH].
  destruct cb as [i r|n]; simpl; [| by repeat split].
  apply commit_query_frame, handleSelection_query_updates.
Qed.

(** ** The component invariant *)

Lemma inv_init : Inv init_world.
Proof.
  constructor; simpl; [done | by intros t [] | constructor | done | constructor | | done].
  intros l i r Hl. by apply elem_of_nil in Hl.
Qed.

Lemma inv_frame (w w' : World) : Inv w -> frame w w' -> Inv w'.
Proof.
  intros [Hb Htf Hid Hmf Hnd Ho Hr] (Hm & Hd & Ht & Hf & Hl & _).
  split; rewrite ?Hm, ?Hd, ?Ht, ?Hf, ?Hl; auto.
Qed.

(** Callbacks of the host page do not affect the selection listeners. *)
Lemma inv_host_listen (w : World) (ty : jsstr) (n : nat) :
  Inv w -> Inv (mkWorld (mounted w) (ui w) (addEventListener ty (HostCallback n) (doc w))
                        (tasks w) (sent w) (console w) (fresh w)).
Proof.
  intros [Hb Htf Hid Hmf Hnd Ho Hr]. split; simpl; auto with chatbot.
  - intros l i r [Hl | ->]%elem_of_addEventListener Hcb; [by eapply Ho | done].
  - intros i r Hm. destruct (Hr i r Hm). rewrite !elem_of_addEventListener. tauto.
Qed.

(** The cleanup of the mounted instance leaves no [handleSelection] on the
    document. *)
Lemma cleanup_clears (w : World) (i r : nat) :
  Inv w -> mounted w = Some (i, r) ->
  forall l i' r', l ∈ selection_cleanup i r (doc w) -> l_callback l <> HandleSelection i' r'.
Proof.
  intros HI Hm l i' r' [Hl [HM HK]]%elem_of_selection_cleanup Hcb.
  destruct (inv_doc_owner w HI l i' r' Hl Hcb) as [Hm' Hty].
  rewrite Hm in Hm'. injection Hm' as <- <-.
  destruct l as [lt lc]; simpl in *; subst lc. by destruct Hty as [-> | ->].
Qed.

Lemma inv_mount (w : World) : Inv w -> Inv (mount w).
Proof.
  intros HI. unfold mount. destruct (mounted w) as [[i r]|] eqn:Hm; [done |].
  destruct HI as [Hb Htf Hid Hmf Hnd Ho Hr]. constructor; simpl.
  - intros i' r' [= <- <-]. rewrite tasks_of_fresh; [done |]. intros t Ht. by apply Htf.
  - intros t Ht. destruct (Htf t Ht). lia.
  - done.
  - intros i' r' [= <- <-]. lia.
  - by apply selection_effect_registers.
  - intros l i' r' [Hl | [-> | ->]]%elem_of_selection_effect Hcb.
    + destruct (Ho l i' r' Hl Hcb) as [Hx _]. congruence.
    + injection Hcb as <- <-. auto.
    + injection Hcb as <- <-. auto.
  - intros i' r' [= <- <-]. split; apply elem_of_selection_effect; tauto.
Qed.

Lemma inv_unmount (w : World) : Inv w -> Inv (unmount w).
Proof.
  intros HI. unfold unmount. destruct (mounted w) as [[i r]|] eqn:Hm; [| done].
  pose proof (cleanup_clears w i r HI Hm) as Hc.
  destruct HI as [Hb Htf Hid Hmf Hnd Ho Hr]. constructor; simpl; try done.
  - auto with chatbot.
  - intros l i' r' Hl Hcb. by destruct (Hc l i' r' Hl Hcb).
Qed.

Lemma inv_strict_replay (w : World) : Inv w -> Inv (strict_replay w).
Proof.
  intros HI. unfold strict_replay. destruct (mounted w) as [[i r]|] eqn:Hm; [| done].
  pose proof (cleanup_clears w i r HI Hm) as Hc.
  destruct HI as [Hb Htf Hid Hmf Hnd Ho Hr]. constructor; simpl.
  - intros i' r' [= <- <-]. by apply (Hb i r).
  - intros t Ht. destruct (Htf t Ht). lia.
  - done.
  - intros i' r' [= <- <-]. destruct (Hmf i r Hm). lia.
  - apply selection_effect_registers. auto with chatbot.
  - intros l i' r' [Hl | [-> | ->]]%elem_of_selection_effect Hcb.
    + by destruct (Hc l i' r' Hl Hcb).
    + injection Hcb as <- <-. auto.
    + injection Hcb as <- <-. auto.
  - intros i' r' [= <- <-]. split; apply elem_of_selection_effect; tauto.
Qed.

Lemma frame_commit_none (w : World) (inst : nat) : frame w (commit w inst eff_none).
Proof. apply commit_query_frame. constructor. Qed.

Lemma NoDup_map_id_snoc (ts : list Task) (t : Task) :
  NoDup (map task_id ts) -> (forall u, In u ts -> (task_id u < task_id t)%nat) ->
  NoDup (map task_id (ts ++ [t])).
Proof.
  intros Hnd Hlt. rewrite map_app. apply list.NoDup_app. split; [done |].
  split; [| apply NoDup_singleton].
  intros x (u & -> & Hu)%list_elem_of_fmap Hx%list_elem_of_singleton.
  apply list_elem_of_In in Hu. specialize (Hlt u Hu). lia.
Qed.

Lemma inv_click (w : World) : Inv w -> Inv (click w).
Proof.
  intros HI. unfold click. destruct (mounted w) as [[i r]|] eqn:Hm; [| done].
  destruct (isLoading (ui w)) eqn:Hl; [done |].
  destruct (decide (js_trim (query (ui w)) = [])) as [Hq|Hq].
  - rewrite sendQuery_start_blank by done. simpl. eapply inv_frame; [done |].
    apply frame_commit_none.
  - rewrite sendQuery_start_nonblank by done.
    destruct HI as [Hb Htf Hid Hmf Hnd Ho Hr]. simpl. unfold commit. rewrite Hm. simpl.
    rewrite decide_True by done. constructor; simpl.
    + intros i' r' [= <- <-]. rewrite tasks_of_app, length_app, (Hb i r Hm), Hl.
      simpl. by rewrite Nat.eqb_refl.
    + intros t [Ht | [<- | []]]%in_app_iff; [destruct (Htf t Ht); lia |].
      simpl. destruct (Hmf i r Hm). lia.
    + apply NoDup_map_id_snoc; [done |]. intros u Hu. simpl. by apply Htf.
    + intros i' r' [= <- <-]. destruct (Hmf i r Hm). lia.
    + done.
    + intros l i' r' Hdl Hcb. rewrite <- Hm. by apply Ho.
    + intros i' r' [= <- <-]. by apply Hr.
Qed.

Lemma NoDup_map_id_drop (tid : nat) (ts : list Task) :
  NoDup (map task_id ts) -> NoDup (map task_id (drop_task tid ts)).
Proof.
  induction ts as [|t ts IH]; [done |]. simpl. intros [Hn Hnd]%list.NoDup_cons.
  destruct (negb (Nat.eqb (task_id t) tid)); simpl; [| auto].
  apply list.NoDup_cons. split; [| auto]. intros Hin. apply Hn.
  apply list_elem_of_In in Hin as (u & <- & Hu)%in_map_iff.
  apply list_elem_of_In, in_map. unfold drop_task in Hu. by apply filter_In in Hu as [? _].
Qed.

Lemma find_task_some (tid : nat) (ts : list Task) (t : Task) :
  find_task tid ts = Some t -> In t ts /\ task_id t = tid.
Proof. intros (Hin & Heq)%find_some. by apply Nat.eqb_eq in Heq. Qed.

Section SettleInv.
Context `{EngineMessages}.

Lemma inv_settle (w : World) (tid : nat) (x : Resumption) : Inv w -> Inv (settle w tid x).
Proof.
  intros HI. unfold settle.
  destruct (find_task tid (tasks w)) as [t|] eqn:Hf; [| done].
  apply find_task_some in Hf as [Ht <-].
  destruct (resume (task_stage t) x) as [seg|] eqn:Hres; [| done].
  destruct HI as [Hb Htf Hid Hmf Hnd Ho Hr].
  destruct (resume_cases _ _ _ Hres) as [-> | (us & log & ->)].
  - destruct (frame_commit_none w (task_inst t)) as (Hm1 & Hd1 & Ht1 & Hf1 & Hl1 & _).
    constructor; unfold with_tasks; cbn [mounted ui doc tasks fresh];
      rewrite ?Hm1, ?Hd1, ?Ht1, ?Hf1, ?Hl1.
    + intros i r Hm. rewrite tasks_of_set_stage. by apply (Hb i r).
    + intros u (u0 & Hu0 & -> & ->)%In_set_stage. by apply Htf.
    + by rewrite map_task_id_set_stage.
    + done.
    + done.
    + done.
    + done.
  - constructor; unfold with_tasks, commit; simpl.
    + intros i r Hm. rewrite Hm. rewrite tasks_of_drop by done. rewrite (Hb i r Hm).
      destruct (decide (i = task_inst t)) as [Heq | Hne].
      * rewrite apply_updates_last_loading.
        rewrite (proj2 (Nat.eqb_eq _ _) (eq_sym Heq)).
        assert (Hin : In t (tasks_of i (tasks w)))
          by (apply filter_In; split; [done | apply Nat.eqb_eq; congruence]).
        pose proof (Hb i r Hm) as Hc. destruct (isLoading (ui w)); [done |].
        destruct (tasks_of i (tasks w)); [done | simpl in Hc; lia].
      * apply Nat.eqb_neq in Hne.
        rewrite Nat.eqb_sym, Hne. simpl. lia.
    + intros u Hu. apply Htf. unfold drop_task in Hu. by apply filter_In in Hu as [? _].
    + by apply NoDup_map_id_drop.
    + done.
    + done.
    + done.
    + done.
Qed.
End SettleInv.

Section Reachable.
Context `{EngineMessages}.

Lemma inv_step (w : World) (ev : Event) : Inv w -> Inv (step w ev).
Proof.
  intros HI. destruct ev; simpl.
  - by apply inv_mount.
  - by apply inv_unmount.
  - by apply inv_strict_replay.
  - by apply inv_host_listen.
  - destruct (mounted w) as [[i r]|]; [| done].
    eapply inv_frame; [done |]. apply commit_query_frame. repeat constructor. eauto.
  - by apply inv_click.
  - eapply inv_frame; [done | apply dom_event_frame].
  - by apply inv_settle.
Qed.

Lemma reachable_inv (w : World) : reachable w -> Inv w.
Proof. induction 1; [apply inv_init | by apply inv_step]. Qed.
End Reachable.

(** ** What every reachable world satisfies *)

Section Properties.
Context `{EngineMessages}.

(** C1: in every reachable world the mounted instance shows
    [isLoading] exactly while one of its requests is in flight, and it
    never has two in flight: the disabled button is the only guard, and
    it suffices. *)
Theorem busy_iff_in_flight (w : World) (i r : nat) :
  reachable w -> mounted w = Some (i, r) ->
  (isLoading (ui w) = true <-> exists t, In t (tasks w) /\ task_inst t = i) /\
  (length (tasks_of i (tasks w)) <= 1)%nat.
Proof.
  intros Hw Hm. pose proof (inv_busy w (reachable_inv w Hw) i r Hm) as Hb.
  split; [| destruct (isLoading (ui w)); lia].
  split.
  - intros Hl. rewrite Hl in Hb. destruct (tasks_of i (tasks w)) as [|t ts] eqn:E; [done |].
    exists t. assert (Ht : In t (tasks_of i (tasks w))) by (rewrite E; by left).
    apply filter_In in Ht as [Ht Hi]. split; [done |]. by apply Nat.eqb_eq.
  - intros (t & Ht & Hi). destruct (isLoading (ui w)); [done |].
    assert (In t (tasks_of i (tasks w))) by (apply filter_In; split; [done | by apply Nat.eqb_eq]).
    destruct (tasks_of i (tasks w)); [done | simpl in Hb; lia].
Qed.

(** C14: the document carries a [handleSelection] exactly for the
    mounted instance's current effect run, for [mouseup] and [keyup]:
    after unmount none is left (no leak), under StrictMode's re-run the
    old closure is gone. *)
Theorem listeners_track_mount (w : World) :
  reachable w ->
  (forall l i r, l ∈ doc w -> l_callback l = HandleSelection i r -> mounted w = Some (i, r)) /\
  (forall i r, mounted w = Some (i, r) ->
     mkListener ev_mouseup (HandleSelection i r) ∈ doc w /\
     mkListener ev_keyup (HandleSelection i r) ∈ doc w).
Proof.
  intros Hw. destruct (reachable_inv w Hw) as [_ _ _ _ _ Ho Hr]. split; [| done].
  intros l i r Hl Hcb. by destruct (Ho l i r Hl Hcb).
Qed.

End Properties.

Section Refinement.
Context `{EngineMessages}.

Lemma phase_frame (w w' : World) : frame w w' -> phase w' = phase w.
Proof. intros (Hm & _ & _ & _ & Hl & _). unfold phase. by rewrite Hm, Hl. Qed.

Lemma refine_click (w : World) :
  Inv w ->
  ctrl_step (phase w) (label w EvClick) (phase (click w)) /\
  sent (click w) = sent w ++ ctrl_requests (label w EvClick).
Proof.
  intros HI. unfold phase, label, click.
  destruct (mounted w) as [[i r]|] eqn:Hm; [| rewrite ?Hm, ?app_nil_r; split; [constructor | done]].
  destruct (isLoading (ui w)) eqn:Hl; [rewrite ?Hm, ?Hl, ?app_nil_r; split; [constructor | done] |].
  unfold ctrl_requests. destruct (decide (js_trim (query (ui w)) = [])) as [Hq|Hq].
  - rewrite sendQuery_start_blank, bool_decide_eq_true_2 by done. simpl.
    unfold commit. rewrite Hm, decide_True by done. simpl. rewrite ?Hm, ?Hl, ?app_nil_r.
    split; [by constructor | done].
  - rewrite sendQuery_start_nonblank, bool_decide_eq_false_2 by done. simpl.
    unfold commit. rewrite Hm, decide_True by done. simpl.
    split; [apply cs_trigger; exact Hq | done].
Qed.

Lemma refine_settle (w : World) (tid : nat) (x : Resumption) :
  Inv w ->
  ctrl_step (phase w) (label w (EvSettle tid x)) (phase (settle w tid x)) /\
  sent (settle w tid x) = sent w ++ ctrl_requests (label w (EvSettle tid x)).
Proof.
  intros HI. unfold label, settle.
  destruct (find_task tid (tasks w)) as [t|] eqn:Hf;
    [| simpl; rewrite app_nil_r; split; [constructor | done]].
  apply find_task_some in Hf as [Ht <-].
  destruct (resume (task_stage t) x) as [seg|] eqn:Hres;
    [| destruct (mounted w) as [[? ?]|]; [destruct (Nat.eqb _ _) |]; simpl; rewrite app_nil_r;
       split; constructor || done].
  destruct (resume_cases _ _ _ Hres) as [-> | (us & log & ->)].
  - assert (Hp : phase (with_tasks (commit w (task_inst t) eff_none)
                  (set_stage (task_id t) AwaitJson (tasks (commit w (task_inst t) eff_none)))) = phase w).
    { unfold phase, with_tasks. cbn [mounted ui].
      destruct (frame_commit_none w (task_inst t)) as (Hm1 & _ & _ & _ & Hl1 & _).
      by rewrite Hm1, Hl1. }
    cbn zeta. rewrite Hp.
    destruct (mounted w) as [[i r]|]; [destruct (Nat.eqb _ _) |]; simpl; rewrite app_nil_r;
      split; constructor || done.
  - cbn zeta. unfold phase, with_tasks. cbn [mounted ui sent].
    unfold commit. cbn [mounted ui sent].
    destruct (mounted w) as [[i r]|] eqn:Hm; [| simpl; rewrite app_nil_r; split; constructor].
    destruct (Nat.eqb_spec (task_inst t) i) as [Hi|Hi].
    + rewrite decide_True by done. simpl. rewrite apply_updates_last_loading, app_nil_r.
      split; [| done].
      pose proof (inv_busy w HI i r Hm) as Hb.
      assert (Hin : In t (tasks_of i (tasks w)))
        by (apply filter_In; split; [done | by apply Nat.eqb_eq]).
      destruct (isLoading (ui w)); [constructor |].
      destruct (tasks_of i (tasks w)); [done | simpl in Hb; lia].
    + rewrite decide_False by congruence. simpl. rewrite app_nil_r. split; constructor.
Qed.

(** C2: the component refines the specification's controller: each
    event is one step of the [Idle]/[Busy] machine under [label] (a
    non-blank trigger makes it [Busy], the settlement of its request makes
    it [Idle], nothing else changes the phase), and the requests sent are
    exactly the ones that machine sends: one POST per accepted trigger. *)
Theorem controller_refinement (w : World) (ev : Event) :
  reachable w ->
  ctrl_step (phase w) (label w ev) (phase (step w ev)) /\
  sent (step w ev) = sent w ++ ctrl_requests (label w ev).
Proof.
  intros Hw. pose proof (reachable_inv w Hw) as HI.
  destruct ev; simpl; try rewrite app_nil_r.
  - unfold phase, mount. destruct (mounted w) eqn:Hm; simpl; rewrite ?Hm; split; constructor || done.
  - unfold phase, unmount. destruct (mounted w) as [[? ?]|] eqn:Hm; simpl; rewrite ?Hm; split; constructor || done.
  - unfold phase, strict_replay. destruct (mounted w) as [[? ?]|] eqn:Hm; simpl; rewrite ?Hm;
    split; constructor || done.
  - unfold phase. split; [constructor | done].
  - destruct (mounted w) as [[i r]|] eqn:Hm; [| unfold phase; rewrite Hm; split; constructor || done].
    unfold phase, commit. cbn [mounted ui sent]. rewrite Hm, decide_True by done.
    simpl. split; [constructor | done].
  - by apply refine_click.
  - pose proof (dom_event_frame w ty sel) as Hfr.
    rewrite (phase_frame _ _ Hfr). destruct Hfr as (_ & _ & _ & _ & _ & ->).
    split; [constructor | done].
  - by apply refine_settle.
Qed.
End Refinement.

(** ** Concrete runs *)

Lemma reachable_run_events `{EngineMessages} (w : World) (evs : list Event) :
  reachable w -> reachable (run_events w evs).
Proof.
  revert w. induction evs as [|ev evs IH]; intros w Hw; [done |].
  apply IH. by constructor.
Qed.

Lemma demo_world_reachable : reachable demo_world.
Proof. apply reachable_run_events, reachable_init. Qed.

Lemma busy_iff_in_flight_witness :
  (isLoading (ui demo_world) = true <-> exists t, In t (tasks demo_world) /\ task_inst t = 0%nat) /\
  (length (tasks_of 0 (tasks demo_world)) <= 1)%nat.
Proof. apply (busy_iff_in_flight demo_world 0 1 demo_world_reachable). reflexivity. Defined.

Lemma controller_refinement_witness :
  let ev := EvSettle 2 (ResumeFetch (Fulfilled (mkResponse 503))) in
  ctrl_step (phase demo_world) (label demo_world ev) (phase (step demo_world ev)) /\
  sent (step demo_world ev) = sent demo_world ++ ctrl_requests (label demo_world ev).
Proof. apply (controller_refinement demo_world), demo_world_reachable. Defined.

Lemma listeners_track_mount_witness :
  (forall l i r, l ∈ doc demo_world -> l_callback l = HandleSelection i r ->
     mounted demo_world = Some (i, r)) /\
  (forall i r, mounted demo_world = Some (i, r) ->
     mkListener ev_mouseup (HandleSelection i r) ∈ doc demo_world /\
     mkListener ev_keyup (HandleSelection i r) ∈ doc demo_world).
Proof. apply listeners_track_mount, demo_world_reachable. Defined.
