(* ===== verification/Render.v ===== *)
(** * The component's view: the JSX of Chatbot.jsx, lines 69-96

    Rendering happens in two phases, and so does the model.  First the
    component function evaluates its JSX: [chatbot_element] builds the
    React element tree ([RNode]) of lines 69-96 from the state, evaluating
    [sources.length > 0 && ...] and [sources.map(...)] (lines 89-91), which
    can throw.  Then React reconciles the elements into host nodes
    ([reconcile] into [VNode]): static JSX text becomes a text node, an
    interpolated value [{v}] becomes text when it is a string or a number,
    nothing when it is a boolean, [null] or [undefined], its elements in
    turn when it is an array, and an error when it is an object.  [render]
    composes the two; a throw is a render error, which unmounts the tree.

    Three host functions are parameters of the section: the CSS module's
    class names ([styles], generated by the bundler), [Number::toString]
    for numeric text, and [ToNumber(v) > 0] for a [length] property that is
    a string, an array or an object (it goes through StringToNumber and
    ToPrimitive).  Every theorem holds for all of them. *)

From S2P Require Import Prelude JsString JsValue Effects Query Selection Listeners Widget.
From Stdlib Require Import PrimFloat.

Set Warnings "-register-all".

(** Attribute values of lines 70-91.  [AOnChange] is
    [(e) => setQuery(e.target.value)] (line 75) and [AOnClick] is
    [sendQuery] (line 79); the world model runs them as [EvInput] and
    [EvClick]. *)
Inductive AttrVal :=
| AStr (s : jsstr)
| ANum (n : Z)
| ABool (b : bool)
| AKey (v : jsval)
| AOnChange
| AOnClick.

(** A React element: a host element, static JSX text, or an interpolated
    value [{v}]. *)
Inductive RNode :=
| RElem (tag : jsstr) (attrs : list (jsstr * AttrVal)) (children : list RNode)
| RText (s : jsstr)
| RValue (v : jsval).

(** A host node of the rendered document. *)
Inductive VNode :=
| VElem (tag : jsstr) (attrs : list (jsstr * AttrVal)) (children : list VNode)
| VText (s : jsstr).

(** [f] on each element, the results concatenated; the first throw ends the
    traversal. *)
Definition cmap_concat {X Y : Type} (f : X -> completion (list Y)) :
    list X -> completion (list Y) :=
  fix go (xs : list X) :=
    match xs with
    | [] => Normal []
    | x :: xs =>
        match f x with
        | Throw e => Throw e
        | Normal ys => match go xs with Throw e => Throw e | Normal zs => Normal (ys ++ zs) end
        end
    end.

Definition is_normal {A : Type} (c : completion A) : bool :=
  match c with Normal _ => true | Throw _ => false end.

Fixpoint join_keys (ks : list jsstr) : jsstr :=
  match ks with
  | [] => []
  | [k] => k
  | k :: ks => k ++ ‹", "› ++ join_keys ks
  end.

(** React's invariant for an object child (React DOM 18, development
    build). *)
Definition object_child_error (ps : list (jsstr * jsval)) : JsError :=
  new_Error (‹"Objects are not valid as a React child (found: object with keys {"› ++
             join_keys (map fst ps) ++
             ‹"}). If you meant to render a collection of children, use an array instead."›).

Section View.
Context `{EngineMessages}.
Variable styles : jsstr -> jsstr.
Variable number_to_string : float -> jsstr.
Variable host_gt_zero : jsval -> bool.

(** The host nodes of an interpolated value; React skips the empty
    string. *)
Fixpoint render_child (v : jsval) : completion (list VNode) :=
  match v with
  | JString [] => Normal []
  | JString s => Normal [VText s]
  | JNumber n => Normal [VText (number_to_string n)]
  | JBool _ | JNull | JUndefined => Normal []
  | JArray vs => cmap_concat render_child vs
  | JObject ps => Throw (object_child_error ps)
  end.

Fixpoint reconcile (n : RNode) : completion (list VNode) :=
  match n with
  | RText s => Normal [VText s]
  | RValue v => render_child v
  | RElem tag attrs cs =>
      match cmap_concat reconcile cs with
      | Throw e => Throw e
      | Normal vs => Normal [VElem tag attrs vs]
      end
  end.

(** [x > 0] (ECMA-262 IsLessThan with ToNumber): [undefined] is [NaN],
    [null] is [+0], booleans are 0 or 1. *)
Definition gt_zero (x : jsval) : bool :=
  match x with
  | JUndefined | JNull => false
  | JBool b => b
  | JNumber n => PrimFloat.ltb PrimFloat.zero n
  | JString _ | JArray _ | JObject _ => host_gt_zero x
  end.

(** [sources.length > 0] (line 89): strings and arrays have their length,
    objects their own [length] property, other primitives none
    ([undefined]); nullish values throw. *)
Definition length_gt_zero (v : jsval) : completion bool :=
  match v with
  | JUndefined | JNull => Throw (mkError ‹"TypeError"› (msg_read_nullish v ‹"length"›))
  | JString s => Normal (bool_decide (s <> []))
  | JArray vs => Normal (bool_decide (vs <> []))
  | JObject ps => Normal (match lookup_prop ‹"length"› ps with Some x => gt_zero x | None => false end)
  | JBool _ | JNumber _ => Normal false
  end.

Definition cls (k : jsstr) : jsstr * AttrVal := (‹"className"›, AStr (styles k)).

(** [s => <span key={s} className={styles.sourceTag}>{s}</span>] (line 91). *)
Definition source_tag (s : jsval) : RNode :=
  RElem ‹"span"› [(‹"key"›, AKey s); cls ‹"sourceTag"›] [RValue s].

(** Lines 89-93: [false] when there is nothing to show; only an array has
    [map], on anything else the call throws.  The array [sources.map]
    returns is a child of the [div]; React lays its elements out after the
    text, as the model's children list does. *)
Definition sources_block (src : jsval) : completion RNode :=
  match length_gt_zero src with
  | Throw e => Throw e
  | Normal false => Normal (RValue (JBool false))
  | Normal true =>
      match src with
      | JArray vs =>
          Normal (RElem ‹"div"› [cls ‹"sources"›] (RText ‹"**Sources:** "› :: map source_tag vs))
      | _ => Throw (mkError ‹"TypeError"› (msg_not_a_function ‹"sources.map"›))
      end
  end.

Definition placeholder : jsstr :=
  ‹"Ask about the book content, or select text on the page to analyze it..."›.

(** The JSX of lines 69-96, evaluated on the state [ui]. *)
Definition chatbot_element (ui : UI) : completion RNode :=
  match sources_block (sources ui) with
  | Throw e => Throw e
  | Normal blk =>
      Normal (RElem ‹"div"› [cls ‹"chatbotContainer"›]
        [RElem ‹"h3"› [cls ‹"title"›] [RText ‹"Integrated RAG Assistant"›];
         RElem ‹"textarea"›
           [cls ‹"textarea"›; (‹"value"›, AStr (query ui)); (‹"onChange"›, AOnChange);
            (‹"placeholder"›, AStr placeholder); (‹"rows"›, ANum 4)] [];
         RElem ‹"button"›
           [cls ‹"button"›; (‹"onClick"›, AOnClick); (‹"disabled"›, ABool (isLoading ui))]
           [RValue (JString (if isLoading ui then ‹"Thinking..."› else ‹"Get Answer"›))];
         RElem ‹"div"› [cls ‹"responseArea"›]
           [if isLoading ui then RElem ‹"p"› [] [RText ‹"Processing..."›]
            else RElem ‹"p"› [cls ‹"answerText"›] [RValue (answer ui)];
            blk]])
  end.

Definition render (ui : UI) : completion (list VNode) :=
  match chatbot_element ui with
  | Throw e => Throw e
  | Normal n => reconcile n
  end.
End View.

(** ** Observing a rendered document *)

Fixpoint text_of (n : VNode) : jsstr :=
  match n with
  | VText s => s
  | VElem _ _ cs => List.concat (map text_of cs)
  end.

(** The elements with tag [tag], in document order. *)
Fixpoint elems_with (tag : jsstr) (n : VNode) : list VNode :=
  match n with
  | VText _ => []
  | VElem t _ cs => (if bool_decide (t = tag) then [n] else []) ++ List.concat (map (elems_with tag) cs)
  end.

Definition attr (k : jsstr) (n : VNode) : option AttrVal :=
  match n with
  | VElem _ attrs _ => snd <$> List.find (fun kv => bool_decide (fst kv = k)) attrs
  | VText _ => None
  end.

(** A value React renders without error: no object anywhere in it. *)
Fixpoint valid_child (v : jsval) : bool :=
  match v with
  | JArray vs => forallb valid_child vs
  | JObject _ => false
  | _ => true
  end.

(** ** The backend's documented response and the states it leads to *)

Definition is_string (v : jsval) : bool := match v with JString _ => true | _ => false end.

Definition string_array (v : jsval) : bool :=
  match v with JArray vs => forallb is_string vs | _ => false end.

(** A state the view can show: a string answer and a list of string
    sources. *)
Definition ui_ok (ui : UI) : bool := is_string (answer ui) && string_array (sources ui).

Definition update_ok (u : Update) : bool :=
  match u with
  | SetAnswer v => is_string v
  | SetSources v => string_array v
  | SetQuery _ | SetIsLoading _ => true
  end.

(** The success body the specification documents (section 5): an object
    with an optional string [final_answer] and an optional list of string
    [sources]. *)
Definition expected_body (v : jsval) : bool :=
  match v with
  | JObject ps =>
      match lookup_prop ‹"final_answer"› ps with None => true | Some x => is_string x end &&
      match lookup_prop ‹"sources"› ps with None => true | Some x => string_array x end
  | _ => false
  end.

(** An event whose JSON body, if it delivers one, is of that shape. *)
Definition expected_event (ev : Event) : bool :=
  match ev with
  | EvSettle _ (ResumeJson (Fulfilled v)) => expected_body v
  | _ => true
  end.

(** ** Concrete inputs *)

(** Host functions for the concrete runs: class names unchanged, every
    number printed as [0], every conversion not positive. *)
Definition demo_styles (k : jsstr) : jsstr := k.
Definition demo_number_to_string (_ : float) : jsstr := ‹"0"›.
Definition demo_host_gt_zero (_ : jsval) : bool := false.

(** The state after the specification's success example. *)
Definition demo_answered_ui : UI :=
  mkUI ‹"What is ROS 2?"› (JString ‹"42"›) (JArray [JString ‹"a"›; JString ‹"b"›]) false.

Definition demo_tree : list VNode :=
  match render demo_styles demo_number_to_string demo_host_gt_zero demo_answered_ui with
  | Normal t => t
  | Throw _ => []
  end.

Definition demo_reply (body : jsval) : list Event :=
  demo_events ++ [EvSettle 2 (ResumeFetch (Fulfilled (mkResponse 200)));
                  EvSettle 2 (ResumeJson (Fulfilled body))].

(** [{"final_answer": "42", "sources": ["a","b"]}] and the same answer
    with [sources] a single string. *)
Definition demo_good_body : jsval :=
  JObject [(‹"final_answer"›, JString ‹"42"›); (‹"sources"›, JArray [JString ‹"a"›; JString ‹"b"›])].

Definition demo_string_sources_body : jsval :=
  JObject [(‹"final_answer"›, JString ‹"42"›); (‹"sources"›, JString ‹"a"›)].

(** ** Lemmas on the traversals *)

Lemma cmap_concat_normal {X Y : Type} (f : X -> completion (list Y)) (xs : list X) :
  is_normal (cmap_concat f xs) = forallb (fun x => is_normal (f x)) xs.
Proof.
  induction xs as [|x xs IH]; [done |]. simpl.
  destruct (f x); [| done]. simpl. rewrite <- IH. by destruct (cmap_concat f xs).
Qed.

(** Each element of [xs] and its part of the result. *)
Lemma cmap_concat_Forall2 {X Y : Type} (f : X -> completion (list Y)) (xs : list X) ys :
  cmap_concat f xs = Normal ys ->
  exists yss, Forall2 (fun x ys => f x = Normal ys) xs yss /\ ys = List.concat yss.
Proof.
  revert ys. induction xs as [|x xs IH]; intros ys Hc; simpl in *; [invc Hc; by exists [] |].
  destruct (f x) as [y|] eqn:Hf; [| done].
  destruct (cmap_concat f xs) as [zs|]; [| done]. invc Hc.
  destruct (IH zs eq_refl) as (yss & Hf2 & ->). exists (y :: yss). by split; [constructor |].
Qed.

Section ViewLemmas.
Context `{EngineMessages}.
Variable styles : jsstr -> jsstr.
Variable number_to_string : float -> jsstr.
Variable host_gt_zero : jsval -> bool.

Local Abbreviation render_child := (render_child number_to_string).
Local Abbreviation reconcile := (reconcile number_to_string).

Lemma render_child_normal (v : jsval) : is_normal (render_child v) = valid_child v.
Proof.
  induction v using jsval_nested_ind; try done; [by destruct s |].
  simpl. rewrite cmap_concat_normal. induction H0; simpl; [done |]. by rewrite H0, IHForall.
Qed.

(** An interpolated value renders to text nodes only. *)
Lemma render_child_text (v : jsval) vs :
  render_child v = Normal vs -> Forall (fun n => exists s, n = VText s) vs.
Proof.
  revert vs. induction v using jsval_nested_ind; intros ws Hr; simpl in Hr;
    try (invc Hr; by repeat constructor; eauto).
  - destruct s; invc Hr; repeat constructor; eauto.
  - apply cmap_concat_Forall2 in Hr as (yss & Hf & ->).
    apply Forall_concat. induction Hf; constructor; invc H0; auto.
Qed.

Lemma reconcile_elem_normal (tag : jsstr) attrs (cs : list RNode) :
  is_normal (reconcile (RElem tag attrs cs)) = forallb (fun c => is_normal (reconcile c)) cs.
Proof. simpl. rewrite <- cmap_concat_normal. by destruct (cmap_concat reconcile cs). Qed.

Lemma reconcile_source_tags (vs : list jsval) ys :
  cmap_concat reconcile (map (source_tag styles) vs) = Normal ys ->
  Forall2 (fun s n => exists cs, render_child s = Normal cs /\
             n = VElem ‹"span"› [(‹"key"›, AKey s); cls styles ‹"sourceTag"›] cs) vs ys.
Proof.
  revert ys. induction vs as [|v vs IH]; intros ys Hc; simpl in Hc; [by invc Hc |].
  destruct (render_child v) as [cs|] eqn:Hv; [| done].
  destruct (cmap_concat reconcile (map (source_tag styles) vs)) as [zs|]; [| done].
  invc Hc. constructor; [exists cs; by rewrite app_nil_r | by apply IH].
Qed.
End ViewLemmas.

(** ** The rendered document *)

Section Rendered.
Context `{EngineMessages}.
Variable styles : jsstr -> jsstr.
Variable number_to_string : float -> jsstr.
Variable host_gt_zero : jsval -> bool.

Local Abbreviation render_child := (render_child number_to_string).
Local Abbreviation reconcile := (reconcile number_to_string).
Local Abbreviation render := (render styles number_to_string host_gt_zero).
Local Abbreviation sources_block := (sources_block styles host_gt_zero).
Local Abbreviation cls := (cls styles).

Lemma sources_block_array (vs : list jsval) :
  sources_block (JArray vs) =
  Normal (match vs with
          | [] => RValue (JBool false)
          | _ => RElem ‹"div"› [cls ‹"sources"›] (RText ‹"**Sources:** "› :: map (source_tag styles) vs)
          end).
Proof. by destruct vs. Qed.

Lemma source_tags_normal (vs : list jsval) :
  forallb (fun c => is_normal (reconcile c)) (map (source_tag styles) vs) = forallb valid_child vs.
Proof.
  induction vs as [|v vs IH]; [done |]. cbn [map forallb]. unfold source_tag at 1.
  rewrite reconcile_elem_normal, IH. cbn [forallb Render.reconcile]. by rewrite render_child_normal, andb_true_r.
Qed.
(** With an array of sources, whether the view renders, as a boolean
    equation. *)
Lemma is_normal_render_array (ui : UI) (vs : list jsval) :
  sources ui = JArray vs ->
  is_normal (render ui) = (isLoading ui || valid_child (answer ui)) && forallb valid_child vs.
Proof.
  intros Hs. unfold Render.render, chatbot_element. rewrite Hs, sources_block_array.
  rewrite reconcile_elem_normal. cbn [forallb]. rewrite !reconcile_elem_normal.
  destruct (isLoading ui), vs as [|v vs]; cbn [forallb];
    rewrite ?reconcile_elem_normal; cbn [forallb]; rewrite ?source_tags_normal; simpl;
    by rewrite ?render_child_normal, ?andb_true_r.
Qed.
(** The rendered document: the title, the text area, the button and the
    response area, whose paragraph and sources block are rendered from the
    state. *)
Lemma render_shape (ui : UI) (t : list VNode) :
  render ui = Normal t ->
  exists resp blk,
    t = [VElem ‹"div"› [cls ‹"chatbotContainer"›]
          [VElem ‹"h3"› [cls ‹"title"›] [VText ‹"Integrated RAG Assistant"›];
           VElem ‹"textarea"›
             [cls ‹"textarea"›; (‹"value"›, AStr (query ui)); (‹"onChange"›, AOnChange);
              (‹"placeholder"›, AStr placeholder); (‹"rows"›, ANum 4)] [];
           VElem ‹"button"›
             [cls ‹"button"›; (‹"onClick"›, AOnClick); (‹"disabled"›, ABool (isLoading ui))]
             [VText (if isLoading ui then ‹"Thinking..."› else ‹"Get Answer"›)];
           VElem ‹"div"› [cls ‹"responseArea"›] (resp ++ blk)]] /\
    (if isLoading ui then resp = [VElem ‹"p"› [] [VText ‹"Processing..."›]]
     else exists cs, render_child (answer ui) = Normal cs /\
                     resp = [VElem ‹"p"› [cls ‹"answerText"›] cs]) /\
    (exists b, sources_block (sources ui) = Normal b /\ reconcile b = Normal blk).
Proof.
  unfold Render.render, chatbot_element. intros Ht.
  destruct (sources_block (sources ui)) as [b|] eqn:Hb; [| done].
  destruct (isLoading ui); simpl in Ht.
  - destruct (reconcile b) as [blk|] eqn:Hr; [| done]. invc Ht.
    exists [VElem ‹"p"› [] [VText ‹"Processing..."›]], blk. rewrite app_nil_r. eauto.
  - destruct (render_child (answer ui)) as [cs|] eqn:Ha; [| done].
    destruct (reconcile b) as [blk|] eqn:Hr; [| done]. invc Ht.
    exists [VElem ‹"p"› [cls ‹"answerText"›] cs], blk. rewrite !app_nil_r.
    split; [done | split; eauto].
Qed.
Lemma elems_with_texts (tag : jsstr) (vs : list VNode) :
  Forall (fun n => exists s, n = VText s) vs -> List.concat (map (elems_with tag) vs) = [].
Proof. induction 1 as [|n vs [s ->] _ IH]; [done |]. by simpl; rewrite IH. Qed.

Lemma render_child_string (a : jsstr) (cs : list VNode) :
  render_child (JString a) = Normal cs -> List.concat (map text_of cs) = a.
Proof. destruct a; intros Hc; invc Hc; simpl; [done | by rewrite app_nil_r]. Qed.

(** What the sources block renders to: nothing, or the [div] with the
    label and one [span] per source of a non-empty array. *)
Lemma sources_block_rendered (src : jsval) (b : RNode) (blk : list VNode) :
  sources_block src = Normal b -> reconcile b = Normal blk ->
  (blk = [] /\ forall vs, src = JArray vs -> vs = []) \/
  exists vs spans, src = JArray vs /\ vs <> [] /\
    cmap_concat reconcile (map (source_tag styles) vs) = Normal spans /\
    blk = [VElem ‹"div"› [cls ‹"sources"›] (VText ‹"**Sources:** "› :: spans)].
Proof.
  unfold Render.sources_block. destruct (length_gt_zero host_gt_zero src) as [[]|] eqn:Hl; [| | done].
  - destruct src as [| | | | |vs|]; intros Hb; invc Hb. simpl.
    destruct (cmap_concat reconcile (map (source_tag styles) vs)) as [spans|] eqn:Hsp; intros Hr; invc Hr.
    right. exists vs, spans. simpl in Hl. injection Hl as Hl%bool_decide_eq_true. auto.
  - intros Hb Hr. invc Hb. invc Hr. left. split; [done |]. intros vs ->.
    simpl in Hl. injection Hl as Hl%bool_decide_eq_false. destruct vs; [done | exfalso; by apply Hl].
Qed.

Lemma source_spans_no_tag (tag : jsstr) (vs : list jsval) (spans : list VNode) :
  tag <> ‹"span"› -> cmap_concat reconcile (map (source_tag styles) vs) = Normal spans ->
  List.concat (map (elems_with tag) spans) = [].
Proof.
  intros Htag Hc. apply reconcile_source_tags in Hc.
  induction Hc as [|s n vs spans (cs & Hcs & ->) _ IH]; [done |]. simpl.
  rewrite bool_decide_eq_false_2 by congruence. simpl.
  by rewrite (elems_with_texts _ _ (render_child_text _ _ _ Hcs)), IH.
Qed.

Lemma sources_no_tag (src : jsval) (b : RNode) (blk : list VNode) (tag : jsstr) :
  sources_block src = Normal b -> reconcile b = Normal blk ->
  tag <> ‹"div"› -> tag <> ‹"span"› -> List.concat (map (elems_with tag) blk) = [].
Proof.
  intros Hb Hblk Hd Hs.
  destruct (sources_block_rendered _ _ _ Hb Hblk) as [[-> _] | (vs & spans & _ & _ & Hsp & ->)];
    [done |]. simpl. rewrite bool_decide_eq_false_2 by congruence. simpl.
  by rewrite (source_spans_no_tag tag vs).
Qed.

Lemma resp_no_tag (ui : UI) (resp : list VNode) (tag : jsstr) :
  (if isLoading ui then resp = [VElem ‹"p"› [] [VText ‹"Processing..."›]]
   else exists cs, render_child (answer ui) = Normal cs /\
                   resp = [VElem ‹"p"› [cls ‹"answerText"›] cs]) ->
  tag <> ‹"p"› -> List.concat (map (elems_with tag) resp) = [].
Proof.
  intros Hresp Hp.
  destruct (isLoading ui); [subst resp | destruct Hresp as (cs & Hcs & ->)]; simpl;
    rewrite bool_decide_eq_false_2 by congruence; simpl; [done |].
  by rewrite (elems_with_texts _ _ (render_child_text _ _ _ Hcs)).
Qed.

(** The response area holds no element of another tag than [p], [div]
    and [span]. *)
Lemma response_area_no_tag (ui : UI) (resp blk : list VNode) (b : RNode) (tag : jsstr) :
  (if isLoading ui then resp = [VElem ‹"p"› [] [VText ‹"Processing..."›]]
   else exists cs, render_child (answer ui) = Normal cs /\
                   resp = [VElem ‹"p"› [cls ‹"answerText"›] cs]) ->
  sources_block (sources ui) = Normal b -> reconcile b = Normal blk ->
  tag <> ‹"p"› -> tag <> ‹"div"› -> tag <> ‹"span"› ->
  List.concat (map (elems_with tag) (resp ++ blk)) = [].
Proof.
  intros Hresp Hb Hblk Hp Hd Hs.
  by rewrite map_app, concat_app, (sources_no_tag _ b blk tag Hb Hblk Hd Hs), (resp_no_tag ui).
Qed.

Lemma source_spans_keys_texts (ss : list jsstr) (spans : list VNode) :
  cmap_concat reconcile (map (source_tag styles) (map JString ss)) = Normal spans ->
  map (fun n => (attr ‹"key"› n, text_of n)) (List.concat (map (elems_with ‹"span"›) spans)) =
    map (fun s => (Some (AKey (JString s)), s)) ss.
Proof.
  intros Hc. apply reconcile_source_tags in Hc. revert spans Hc.
  induction ss as [|s ss IH]; intros spans Hc; invc Hc; [done |].
  destruct H2 as (cs & Hcs & ->). simpl.
  rewrite (elems_with_texts _ _ (render_child_text _ _ _ Hcs)). simpl.
  by rewrite (render_child_string s cs Hcs), IH.
Qed.

(** C16: the rendered document has one button and one text area.  The
    button runs [sendQuery] on click, carries [disabled] exactly when
    [isLoading] holds (the guard [Widget.click] applies) and reads
    [Thinking...] while loading and [Get Answer] otherwise; the text area
    shows [query]. *)
Theorem render_controls (ui : UI) (t : list VNode) :
  render ui = Normal t ->
  map (fun b => (attr ‹"disabled"› b, attr ‹"onClick"› b, text_of b))
      (List.concat (map (elems_with ‹"button"›) t)) =
    [(Some (ABool (isLoading ui)), Some AOnClick,
      if isLoading ui then ‹"Thinking..."› else ‹"Get Answer"›)] /\
  map (attr ‹"value"›) (List.concat (map (elems_with ‹"textarea"›) t)) = [Some (AStr (query ui))].
Proof.
  intros Ht. destruct (render_shape ui t Ht) as (resp & blk & -> & Hresp & b & Hb & Hblk).
  simpl. rewrite !(response_area_no_tag ui resp blk b) by (done || by vm_compute).
  by rewrite !app_nil_r.
Qed.
(** C17: the response area shows [Processing...] while a request is in
    flight and the answer otherwise, and nothing else in a paragraph. *)
Theorem render_response (ui : UI) (a : jsstr) (t : list VNode) :
  answer ui = JString a -> render ui = Normal t ->
  map text_of (List.concat (map (elems_with ‹"p"›) t)) =
    [if isLoading ui then ‹"Processing..."› else a].
Proof.
  intros Ha Ht. destruct (render_shape ui t Ht) as (resp & blk & -> & Hresp & b & Hb & Hblk).
  simpl. rewrite !app_nil_r, map_app, concat_app, (sources_no_tag _ b blk ‹"p"› Hb Hblk) by (by vm_compute).
  destruct (isLoading ui); [subst resp | destruct Hresp as (cs & Hcs & ->)]; simpl; [done |].
  rewrite Ha in Hcs. by rewrite (elems_with_texts _ _ (render_child_text _ _ _ Hcs)),
    (render_child_string a cs Hcs).
Qed.

(** C18: with the sources a list of strings, the document shows one tag
    per source, in order, keyed and labelled by it, and the sources block
    (a third [div]) exactly when there is at least one source. *)
Theorem render_sources (ui : UI) (ss : list jsstr) (t : list VNode) :
  sources ui = JArray (map JString ss) -> render ui = Normal t ->
  map (fun n => (attr ‹"key"› n, text_of n)) (List.concat (map (elems_with ‹"span"›) t)) =
    map (fun s => (Some (AKey (JString s)), s)) ss /\
  length (List.concat (map (elems_with ‹"div"›) t)) = (if bool_decide (ss = []) then 2 else 3)%nat.
Proof.
  intros Hs Ht. destruct (render_shape ui t Ht) as (resp & blk & -> & Hresp & b & Hb & Hblk).
  simpl. rewrite !app_nil_r, !map_app, !concat_app, !(resp_no_tag ui resp) by (done || by vm_compute).
  simpl. destruct (sources_block_rendered _ _ _ Hb Hblk) as [[-> Hnil] | (vs & spans & Hvs & Hne & Hsp & ->)].
  - specialize (Hnil _ Hs). by destruct ss.
  - rewrite Hs in Hvs. injection Hvs as <-. simpl.
    rewrite !app_nil_r, (source_spans_keys_texts ss spans Hsp), (source_spans_no_tag _ _ spans) by (done || by vm_compute).
    rewrite bool_decide_eq_false_2; [done |]. intros ->. by apply Hne.
Qed.
End Rendered.

(** ** States reached with the documented backend *)

Lemma apply_updates_ok (ui : UI) (us : list Update) :
  ui_ok ui = true -> forallb update_ok us = true -> ui_ok (apply_updates ui us) = true.
Proof.
  unfold apply_updates. revert ui. induction us as [|u us IH]; intros ui Hui Hus; [done |].
  simpl in Hus. apply andb_prop in Hus as [Hu Hus]. apply IH; [| done].
  unfold ui_ok in *. apply andb_prop in Hui as [Ha Hs].
  destruct u; simpl in *; by rewrite ?Ha, ?Hs, ?Hu.
Qed.

Lemma commit_ok (w : World) (i : nat) (e : Eff) :
  ui_ok (ui w) = true -> forallb update_ok (eff_updates e) = true -> ui_ok (ui (commit w i e)) = true.
Proof.
  intros Hw He. unfold commit. simpl.
  destruct (mounted w) as [[j r]|]; [case_decide |]; [by apply apply_updates_ok | done | done].
Qed.

Lemma query_updates_ok (us : list Update) : query_updates us -> forallb update_ok us = true.
Proof. induction 1 as [|u us [s ->] _ IH]; [done |]. by simpl; rewrite IH. Qed.

Lemma after_fetch_updates_ok (r : settled Response) :
  forallb update_ok (eff_updates (fst (sendQuery_after_fetch r))) = true.
Proof.
  destruct r as [resp|e]; [destruct (response_ok resp) eqn:Hok |].
  - by rewrite after_fetch_ok.
  - by rewrite after_fetch_not_ok.
  - by rewrite after_fetch_rejected.
Qed.

(** [a || d] keeps a property both an absent [a] and the default have. *)
Lemma js_or_keeps (P : jsval -> bool) (a d : jsval) :
  P a = true \/ a = JUndefined -> P d = true -> P (js_or a d) = true.
Proof. unfold js_or. intros [Ha | ->] Hd; [by destruct (to_boolean a) | done]. Qed.

Section Backend.
Context `{EngineMessages}.

Lemma after_json_updates_ok (r : settled jsval) :
  (match r with Fulfilled v => expected_body v | Rejected _ => true end) = true ->
  forallb update_ok (eff_updates (fst (sendQuery_after_json r))) = true.
Proof.
  destruct r as [data|e]; [| by rewrite after_json_rejected].
  destruct data as [| | | | | |ps]; intros Hb; try done.
  rewrite (after_json_value _ (match lookup_prop ‹"final_answer"› ps with Some x => x | None => JUndefined end)
             (match lookup_prop ‹"sources"› ps with Some x => x | None => JUndefined end)) by done.
  apply andb_prop in Hb as [Hfa Hsrc]. cbn [eff_updates fst forallb update_ok].
  rewrite !js_or_keeps; [done | | done | | done].
  - destruct (lookup_prop ‹"sources"› ps); [by left | by right].
  - destruct (lookup_prop ‹"final_answer"› ps); [by left | by right].
Qed.

Lemma resume_updates_ok (s : Suspension) (tid : nat) (x : Resumption) (seg : Seg Outcome) :
  expected_event (EvSettle tid x) = true -> resume s x = Some seg ->
  forallb update_ok (eff_updates (fst seg)) = true.
Proof.
  intros Hx. destruct s, x as [r|r]; simpl; intros [= <-];
    [apply after_fetch_updates_ok | apply after_json_updates_ok; by destruct r].
Qed.

Lemma step_ok (w : World) (ev : Event) :
  ui_ok (ui w) = true -> expected_event ev = true -> ui_ok (ui (step w ev)) = true.
Proof.
  intros Hw Hev. destruct ev; simpl.
  - unfold mount. by destruct (mounted w).
  - unfold unmount. by destruct (mounted w) as [[? ?]|].
  - unfold strict_replay. by destruct (mounted w) as [[? ?]|].
  - done.
  - destruct (mounted w) as [[i r]|]; [by apply commit_ok | done].
  - unfold click. destruct (mounted w) as [[i r]|]; [| done]. destruct (isLoading (ui w)); [done |].
    destruct (decide (js_trim (query (ui w)) = [])) as [Hq|Hq];
      [rewrite sendQuery_start_blank by done | rewrite sendQuery_start_nonblank by done];
      cbn -[commit]; by apply commit_ok.
  - unfold dom_event. generalize (dispatch_targets ty (doc w)) as cbs.
    intros cbs. revert w Hw. induction cbs as [|cb cbs IH]; intros w Hw; [done |].
    cbn -[commit]. apply IH. destruct cb; cbn -[commit]; [| done].
    apply commit_ok, query_updates_ok, handleSelection_query_updates; done.
  - unfold settle. destruct (find_task tid (tasks w)) as [t|]; [| done].
    destruct (resume (task_stage t) x) as [[e r]|] eqn:Hr; [| done].
    pose proof (resume_updates_ok _ _ _ _ Hev Hr) as He.
    destruct r as [[]|]; cbn -[commit]; by apply commit_ok.
Qed.
End Backend.

Lemma run_events_ok `{EngineMessages} (w : World) (evs : list Event) :
  ui_ok (ui w) = true -> forallb expected_event evs = true -> ui_ok (ui (run_events w evs)) = true.
Proof.
  revert w. induction evs as [|ev evs IH]; intros w Hw Hevs; [done |].
  simpl in Hevs. apply andb_prop in Hevs as [Hev Hevs]. apply IH; [by apply step_ok | done].
Qed.

Lemma is_normal_true (A : Type) (c : completion A) : is_normal c = true <-> exists a, c = Normal a.
Proof. destruct c; split; try done; [by eexists | by intros [? ?]]. Qed.

Lemma string_valid_child (v : jsval) : is_string v = true -> valid_child v = true.
Proof. by destruct v. Qed.

(** ** What the view shows *)

Section ViewProperties.
Context `{EngineMessages}.
Variable styles : jsstr -> jsstr.
Variable number_to_string : float -> jsstr.
Variable host_gt_zero : jsval -> bool.

Local Abbreviation render := (render styles number_to_string host_gt_zero).

(** C15: with an array of sources, the view renders exactly when every
    source is a valid React child (no object anywhere in it) and so is the
    answer, unless the [Processing...] paragraph replaces it. *)
Theorem render_normal_iff (ui : UI) (vs : list jsval) :
  sources ui = JArray vs ->
  (exists t, render ui = Normal t) <->
  (isLoading ui = true \/ valid_child (answer ui) = true) /\ Forall (fun v => valid_child v = true) vs.
Proof.
  intros Hs. rewrite <- is_normal_true, (is_normal_render_array styles number_to_string host_gt_zero ui vs Hs).
  by rewrite andb_true_iff, orb_true_iff, forallb_forall, Forall_forall.
Qed.

(** C4: in every run whose JSON bodies have the documented shape (an
    optional string [final_answer], an optional list of string [sources]),
    the view renders in every state reached: the answer stays a string and
    the sources a list of strings. *)
Theorem view_renders_on_expected_backend (evs : list Event) :
  forallb expected_event evs = true -> exists t, render (ui (run_events init_world evs)) = Normal t.
Proof.
  intros Hevs. pose proof (run_events_ok init_world evs eq_refl Hevs) as Hok.
  unfold ui_ok in Hok. apply andb_prop in Hok as [Ha Hs].
  destruct (sources (ui (run_events init_world evs))) as [| | | | |vs|] eqn:Hsrc; try done.
  apply is_normal_true. rewrite (is_normal_render_array styles number_to_string host_gt_zero _ vs Hsrc), string_valid_child by done.
  rewrite orb_true_r. simpl. apply forallb_forall. intros v Hv.
  apply string_valid_child. by apply (proj1 (forallb_forall _ _) Hs).
Qed.

(** C5: a backend that answers [sources] with a non-empty string (one
    citation instead of a list) crashes the view: [sources.length > 0]
    holds and a string has no [map]. *)
Theorem render_string_sources_throws (ui : UI) (s : jsstr) :
  sources ui = JString s -> s <> [] ->
  render ui = Throw (mkError ‹"TypeError"› (msg_not_a_function ‹"sources.map"›)).
Proof.
  intros Hs Hne. unfold Render.render, chatbot_element, Render.sources_block. rewrite Hs. simpl.
  by rewrite bool_decide_eq_true_2.
Qed.
End ViewProperties.

(** ** Witnesses *)

Lemma render_normal_iff_witness :
  (exists t, render demo_styles demo_number_to_string demo_host_gt_zero demo_answered_ui = Normal t) <->
  (isLoading demo_answered_ui = true \/ valid_child (answer demo_answered_ui) = true) /\
  Forall (fun v => valid_child v = true) [JString ‹"a"›; JString ‹"b"›].
Proof. apply render_normal_iff. reflexivity. Defined.

Lemma render_controls_witness :
  map (fun b => (attr ‹"disabled"› b, attr ‹"onClick"› b, text_of b))
      (List.concat (map (elems_with ‹"button"›) demo_tree)) =
    [(Some (ABool (isLoading demo_answered_ui)), Some AOnClick,
      if isLoading demo_answered_ui then ‹"Thinking..."› else ‹"Get Answer"›)] /\
  map (attr ‹"value"›) (List.concat (map (elems_with ‹"textarea"›) demo_tree)) =
    [Some (AStr (query demo_answered_ui))].
Proof.
  apply (render_controls demo_styles demo_number_to_string demo_host_gt_zero).
  vm_compute. reflexivity.
Defined.

Lemma render_response_witness :
  map text_of (List.concat (map (elems_with ‹"p"›) demo_tree)) =
    [if isLoading demo_answered_ui then ‹"Processing..."› else ‹"42"›].
Proof.
  apply (render_response demo_styles demo_number_to_string demo_host_gt_zero); [reflexivity |].
  vm_compute. reflexivity.
Defined.

Lemma render_sources_witness :
  map (fun n => (attr ‹"key"› n, text_of n)) (List.concat (map (elems_with ‹"span"›) demo_tree)) =
    map (fun s => (Some (AKey (JString s)), s)) [‹"a"›; ‹"b"›] /\
  length (List.concat (map (elems_with ‹"div"›) demo_tree)) =
    (if bool_decide ([‹"a"›; ‹"b"›] = []) then 2 else 3)%nat.
Proof.
  apply (render_sources demo_styles demo_number_to_string demo_host_gt_zero demo_answered_ui);
    [reflexivity | vm_compute; reflexivity].
Defined.

Lemma view_renders_on_expected_backend_witness :
  exists t, render demo_styles demo_number_to_string demo_host_gt_zero
              (ui (run_events init_world (demo_reply demo_good_body))) = Normal t.
Proof. apply view_renders_on_expected_backend. vm_compute. reflexivity. Defined.

(** The backend's single-string [sources] reaches the state and crashes
    the view. *)
Lemma render_string_sources_throws_witness :
  reachable (run_events init_world (demo_reply demo_string_sources_body)) /\
  render demo_styles demo_number_to_string demo_host_gt_zero
    (ui (run_events init_world (demo_reply demo_string_sources_body))) =
    Throw (mkError ‹"TypeError"› (msg_not_a_function ‹"sources.map"›)).
Proof.
  split; [apply reachable_run_events, reachable_init |].
  apply (render_string_sources_throws demo_styles demo_number_to_string demo_host_gt_zero _ ‹"a"›);
    [vm_compute; reflexivity | intros Hc; vm_compute in Hc; discriminate].
Defined.
